(** * Vector Explorer: database detection, adapter loading and CSV export

    A shallow embedding of [src/services/VectorDBLoader.ts] and
    [src/utils/csvExporter.ts], and the properties of the specification
    checked against it.

    The Node and VS Code services the loader calls ([fs], [path],
    [child_process], [JSON], the extension context and the configuration)
    are the fields of a [Host] record; those of the exporter (the save
    dialog, [fs.writeFileSync], [JSON.stringify] and csv-stringify) are the
    fields of a [Desk].  The loader is written over a small
    state-and-exception monad whose state holds the private field
    [_detectedPath] and the commands handed to [spawn]; a child process is
    the list of events it emits, and the promise of [loadWithPython] is
    what the listeners make of that list.

    JavaScript strings are modelled by [string], one character per code
    unit, and numbers by binary64 floats.  The diagnostic [console.log] and
    [console.error] calls are left out. *)

From Stdlib Require Import String Ascii List Bool Arith ZArith Lia.
From Stdlib Require Import DecimalString Floats.
From Stdlib Require Import Permutation.
Import ListNotations.
Set Warnings "-register-all".
Local Open Scope list_scope.
Local Open Scope string_scope.

(** ** JavaScript values and control flow *)

Module JS.

(** A computation either completes with a value or throws an [Error]
    carrying a message. *)
Inductive result (A : Type) : Type :=
| Ok (a : A)
| Throw (message : string).
Arguments Ok {A} a.
Arguments Throw {A} message.

Definition rbind {A B} (c : result A) (k : A -> result B) : result B :=
  match c with
  | Ok a => k a
  | Throw e => Throw e
  end.

(** [try { body } catch (error) { handler }] *)
Definition rcatch {A} (body : result A) (handler : string -> result A)
  : result A :=
  match body with
  | Ok a => Ok a
  | Throw e => handler e
  end.

Definition nl : string := String (ascii_of_nat 10) EmptyString.
Definition dquote : string := String (ascii_of_nat 34) EmptyString.

(** [String.prototype.toLowerCase] on the letters A-Z; other characters
    are kept.  The texts it is compared with below, [.faiss] and [.index],
    are ASCII. *)
Definition lower_ascii (c : ascii) : ascii :=
  let n := nat_of_ascii c in
  if ((65 <=? n) && (n <=? 90))%nat then ascii_of_nat (n + 32) else c.

Fixpoint toLowerCase (s : string) : string :=
  match s with
  | EmptyString => EmptyString
  | String c rest => String (lower_ascii c) (toLowerCase rest)
  end.

(** [String.prototype.endsWith] *)
Definition endsWith (s suffix : string) : bool :=
  let n := String.length s in
  let m := String.length suffix in
  (m <=? n)%nat && (substring (n - m) m s =? suffix).

(** Truthiness of a [string | null] value: [null] and the empty string
    are falsy. *)
Definition truthy (v : option string) : bool :=
  match v with
  | Some s => negb (s =? "")
  | None => false
  end.

(** [a || b] on a [string | null] left operand. *)
Definition or_else (a : option string) (b : string) : string :=
  match a with
  | Some s => if s =? "" then b else s
  | None => b
  end.

(** [Array.prototype.join] on strings. *)
Fixpoint join (sep : string) (l : list string) : string :=
  match l with
  | [] => ""
  | [x] => x
  | x :: rest => x ++ sep ++ join sep rest
  end.

(** Decimal text of an integer, as a template literal prints it. *)
Definition string_of_Z (z : Z) : string :=
  NilZero.string_of_int (Z.to_int z).

Definition string_of_nat (n : nat) : string := string_of_Z (Z.of_nat n).

End JS.
Export JS.

(** ** JSON values, as [JSON.parse] builds them *)

Module Json.

Inductive json : Type :=
| JNull
| JBool (b : bool)
| JNumber (n : float)
| JString (s : string)
| JArray (elements : list json)
| JObject (members : list (string * json)).

(** Own property lookup on an object's members; with a repeated key the
    last occurrence is the one [JSON.parse] keeps. *)
Fixpoint get_member (key : string) (members : list (string * json))
  : option json :=
  match members with
  | [] => None
  | (k, v) :: rest =>
      match get_member key rest with
      | Some v' => Some v'
      | None => if k =? key then Some v else None
      end
  end.

(** [(value as any).key]; [None] is [undefined]. *)
Definition get_property (key : string) (v : json) : option json :=
  match v with
  | JObject members => get_member key members
  | _ => None
  end.

(** The text a template literal [`${value}`] interpolates.  An object
    holding a member named [toString] has no callable conversion left and
    the interpolation throws; any other object built by [JSON.parse] prints
    through [Object.prototype.toString].  Arrays print their elements
    joined by commas, [null] elements as the empty text. *)
Fixpoint to_string (number_to_string : float -> string) (v : json)
  : result string :=
  match v with
  | JNull => Ok "null"
  | JBool true => Ok "true"
  | JBool false => Ok "false"
  | JNumber n => Ok (number_to_string n)
  | JString s => Ok s
  | JArray elements =>
      let element x :=
        match x with
        | JNull => Ok ""
        | _ => to_string number_to_string x
        end in
      (fix join_elements (l : list json) : result string :=
         match l with
         | [] => Ok ""
         | [x] => element x
         | x :: rest =>
             rbind (element x) (fun s =>
             rbind (join_elements rest) (fun r => Ok (s ++ "," ++ r)))
         end) elements
  | JObject members =>
      match get_member "toString" members with
      | Some _ => Throw "Cannot convert object to primitive value"
      | None => Ok "[object Object]"
      end
  end.

(** [key in value], for a key that no prototype defines.  The operator
    throws a TypeError when its right operand is not an object; arrays
    built by [JSON.parse] have index keys and [length] only. *)
Definition has_property (number_to_string : float -> string) (key : string)
  (v : json) : result bool :=
  match v with
  | JObject members =>
      Ok (match get_member key members with Some _ => true | None => false end)
  | JArray _ => Ok false
  | _ =>
      rbind (to_string number_to_string v) (fun shown =>
        Throw ("Cannot use 'in' operator to search for '" ++ key ++ "' in "
               ++ shown))
  end.

End Json.
Export Json.

(** ** The host: file system, paths, configuration, child processes *)

Module Node.

(** What [Stats.isFile()] and [Stats.isDirectory()], or the same methods
    of a [Dirent], answer.  A [Dirent] of a symbolic link is [Other]. *)
Inductive kind : Type := File | Directory | Other.

Definition isFile (k : kind) : bool :=
  match k with File => true | _ => false end.

Definition isDirectory (k : kind) : bool :=
  match k with Directory => true | _ => false end.

Record Dirent : Type := mkDirent { name : string; dirent_kind : kind }.

Definition Buffer : Type := list Byte.byte.

(** Events a child process emits, in the order the loader's listeners
    run. [Close None] is a child ended by a signal (exit code [null]). *)
Inductive event : Type :=
| StdoutData (data : Buffer)
| StderrData (data : Buffer)
| Close (code : option Z)
| ProcessError (message : string).

Record Host : Type := mkHost {
  (* fs *)
  existsSync : string -> bool;
  statSync : string -> result kind;
  readdirSync : string -> result (list Dirent);
  (* path *)
  path_join : string -> string -> string;
  path_extname : string -> string;
  path_basename : string -> string;
  (* vscode: context.extensionPath and the pythonPath setting *)
  extensionPath : string;
  pythonPath : option string;
  (* process.platform *)
  platform : string;
  (* child_process.spawn(command, [], {cwd, shell: true}) *)
  spawn : string -> string -> list event;
  (* JSON.parse, Number's and Buffer's toString *)
  JSON_parse : string -> result json;
  Number_toString : float -> string;
  Buffer_toString : Buffer -> string
}.

End Node.
Export Node.

(** ** [VectorDBLoader] *)

Module Loader.

(** The loader's mutable state: its private field, and the commands
    handed to [spawn] so far. *)
Record state : Type := mkState {
  _detectedPath : option string;
  spawned : list string
}.

(** State-passing computations that may throw; what was written to the
    state before a throw stays written. *)
Definition M (A : Type) : Type := state -> result A * state.

Definition ret {A} (a : A) : M A := fun s => (Ok a, s).

Definition bind {A B} (c : M A) (k : A -> M B) : M B :=
  fun s =>
    match c s with
    | (Ok a, s') => k a s'
    | (Throw e, s') => (Throw e, s')
    end.

Definition throw {A} (message : string) : M A := fun s => (Throw message, s).

Definition lift {A} (r : result A) : M A := fun s => (r, s).

Definition try_catch {A} (body : M A) (handler : string -> M A) : M A :=
  fun s =>
    match body s with
    | (Ok a, s') => (Ok a, s')
    | (Throw e, s') => handler e s'
    end.

Definition set_detectedPath (p : option string) : M unit :=
  fun s => (Ok tt, {| _detectedPath := p; spawned := spawned s |}).

Definition get_detectedPath : M (option string) :=
  fun s => (Ok (_detectedPath s), s).

Definition log_spawn (command : string) : M unit :=
  fun s => (Ok tt, {| _detectedPath := _detectedPath s;
                      spawned := spawned s ++ [command] |}).

Declare Scope loader_scope.
Delimit Scope loader_scope with loader.
Notation "x <- c ;; k" := (bind c (fun x => k))
  (at level 61, c at next level, right associativity) : loader_scope.
Notation "c ;; k" := (bind c (fun _ => k))
  (at level 61, right associativity) : loader_scope.
Local Open Scope loader_scope.

Inductive dbType : Type := faiss | chroma.

(** How a promise ends: fulfilled, rejected with an [Error], or never
    settled. *)
Inductive promise (A : Type) : Type :=
| Resolved (value : A)
| Rejected (message : string)
| Pending.
Arguments Resolved {A} value.
Arguments Rejected {A} message.
Arguments Pending {A}.

Section WithHost.

Variable h : Host.

(** *** Directory search *)

Definition isFaissName (fileName : string) : bool :=
  let lowerName := toLowerCase fileName in
  endsWith lowerName ".faiss" || endsWith lowerName ".index".

(** First loop of [searchForFaissFiles]: the first entry that is a file
    with a FAISS name, joined to the directory. *)
Fixpoint faissFileIn (dirPath : string) (entries : list Dirent)
  : option string :=
  match entries with
  | [] => None
  | entry :: rest =>
      if isFile (dirent_kind entry) && isFaissName (name entry)
      then Some (path_join h dirPath (name entry))
      else faissFileIn dirPath rest
  end.

(** The test guarding the recursion in both searches. *)
Definition isSearchedDir (entry : Dirent) : bool :=
  isDirectory (dirent_kind entry)
  && negb (name entry =? ".")
  && negb (name entry =? "..")
  && negb (name entry =? ".git").

(** Second loop of both searches: recurse into each sub-directory in
    listing order and return the first truthy result. *)
Fixpoint searchSubdirs (recur : string -> result (option string))
  (dirPath : string) (entries : list Dirent) : result (option string) :=
  match entries with
  | [] => Ok None
  | entry :: rest =>
      if isSearchedDir entry then
        rbind (recur (path_join h dirPath (name entry))) (fun found =>
          if truthy found then Ok found
          else searchSubdirs recur dirPath rest)
      else searchSubdirs recur dirPath rest
  end.

(** [searchForFaissFiles] with the guard [currentDepth > maxDepth]
    counted down: [levels] is [maxDepth + 1 - currentDepth], the number
    of directory levels still to be read.  [Ok None] is [null]. *)
Fixpoint searchFaissLevels (levels : nat) (dirPath : string)
  : result (option string) :=
  match levels with
  | 0 => Ok None
  | S deeper =>
      rcatch
        (rbind (readdirSync h dirPath) (fun entries =>
           match faissFileIn dirPath entries with
           | Some fullPath => Ok (Some fullPath)
           | None => searchSubdirs (searchFaissLevels deeper) dirPath entries
           end))
        (fun _ => Ok None)
  end.

Definition searchForFaissFiles (dirPath : string)
  (currentDepth maxDepth : nat) : result (option string) :=
  searchFaissLevels (S maxDepth - currentDepth) dirPath.

(** First loop of [searchForChromaDB]. *)
Definition chromaFileIn (entries : list Dirent) : bool :=
  existsb (fun entry =>
             isFile (dirent_kind entry) && (name entry =? "chroma.sqlite3"))
          entries.

Fixpoint searchChromaLevels (levels : nat) (dirPath : string)
  : result (option string) :=
  match levels with
  | 0 => Ok None
  | S deeper =>
      rcatch
        (rbind (readdirSync h dirPath) (fun entries =>
           if chromaFileIn entries then Ok (Some dirPath)
           else searchSubdirs (searchChromaLevels deeper) dirPath entries))
        (fun _ => Ok None)
  end.

Definition searchForChromaDB (dirPath : string)
  (currentDepth maxDepth : nat) : result (option string) :=
  searchChromaLevels (S maxDepth - currentDepth) dirPath.

(** *** Type detection *)

Definition detectDatabaseType (dbPath : string) : M (option dbType) :=
  try_catch
    (stat <- lift (statSync h dbPath) ;;
     if isFile stat then
       let lowerPath := toLowerCase dbPath in
       if endsWith lowerPath ".faiss" || endsWith lowerPath ".index" then
         set_detectedPath (Some dbPath) ;;
         ret (Some faiss)
       else ret None
     else if isDirectory stat then
       let chromaDbPath := path_join h dbPath "chroma.sqlite3" in
       if existsSync h chromaDbPath then
         set_detectedPath (Some dbPath) ;;
         ret (Some chroma)
       else
         let faissIndexPath := path_join h dbPath "index.faiss" in
         if existsSync h faissIndexPath then
           set_detectedPath (Some faissIndexPath) ;;
           ret (Some faiss)
         else
           foundFaiss <- lift (searchForFaissFiles dbPath 0 3) ;;
           if truthy foundFaiss then
             set_detectedPath foundFaiss ;;
             ret (Some faiss)
           else
             foundChroma <- lift (searchForChromaDB dbPath 0 3) ;;
             if truthy foundChroma then
               set_detectedPath foundChroma ;;
               ret (Some chroma)
             else ret None
     else ret None)
    (fun _ => ret None).

(** *** Running the adapter *)

Definition getPythonCommand : string :=
  let fallback := if platform h =? "win32" then "python" else "python3" in
  match pythonPath h with
  | Some customPython =>
      if customPython =? "" then fallback else customPython
  | None => fallback
  end.

Definition adapterScript (t : dbType) : string :=
  match t with
  | faiss => "faiss_adapter.py"
  | chroma => "chroma_adapter.py"
  end.

Definition pythonScriptPath (t : dbType) : string :=
  path_join h (path_join h (extensionPath h) "python") (adapterScript t).

(** The command line given to the shell. *)
Definition commandLine (dbPath : string) (t : dbType) : string :=
  let quotedScriptPath := dquote ++ pythonScriptPath t ++ dquote in
  let quotedDbPath := dquote ++ dbPath ++ dquote in
  getPythonCommand ++ " " ++ quotedScriptPath ++ " " ++ quotedDbPath.

(** What the listeners share: the two accumulators, and how the promise
    was settled, if it was. *)
Record listeners : Type := mkListeners {
  outputData : string;
  errorData : string;
  settled : option (result json)
}.

Definition listening : listeners :=
  {| outputData := ""; errorData := ""; settled := None |}.

(** [resolve] and [reject] only act on a promise not yet settled. *)
Definition settle (r : result json) (l : listeners) : listeners :=
  match settled l with
  | Some _ => l
  | None => {| outputData := outputData l;
               errorData := errorData l;
               settled := Some r |}
  end.

Definition is_zero (code : option Z) : bool :=
  match code with
  | Some z => (z =? 0)%Z
  | None => false
  end.

Definition code_text (code : option Z) : string :=
  match code with
  | Some z => string_of_Z z
  | None => "null"
  end.

(** The [try] block of the [close] listener.  The outer result is what
    the block throws; the inner one is the argument of the [resolve] or
    [reject] it reaches. *)
Definition parseOutput (output : string) : result (result json) :=
  rbind (JSON_parse h output) (fun vectorData =>
  rbind (has_property (Number_toString h) "error" vectorData) (fun hasError =>
    if hasError then
      rbind (match get_property "error" vectorData with
             | Some v => to_string (Number_toString h) v
             | None => Ok "undefined"
             end)
            (fun text => Ok (Throw ("Python adapter error: " ++ text)))
    else Ok (Ok vectorData))).

(** What the [close] listener settles the promise with on exit code
    zero; the [catch] clause turns whatever the block throws into a
    parse failure. *)
Definition zeroExit (output : string) : result json :=
  match parseOutput output with
  | Ok settlement => settlement
  | Throw message =>
      Throw ("Failed to parse Python output: " ++ message ++ nl
             ++ "Output: " ++ substring 0 500 output
             ++ (if (500 <? String.length output)%nat then "..." else ""))
  end.

Definition onClose (command : string) (code : option Z) (l : listeners)
  : listeners :=
  if negb (is_zero code) then
    settle
      (Throw ("Python process exited with code " ++ code_text code ++ nl
              ++ "Command: " ++ command ++ nl
              ++ "Error: "
              ++ or_else (Some (errorData l)) "No error output" ++ nl
              ++ "Output: " ++ or_else (Some (outputData l)) "No output"))
      l
  else settle (zeroExit (outputData l)) l.

Definition onError (message : string) (l : listeners) : listeners :=
  settle
    (Throw ("Failed to start Python process: " ++ message ++ nl
            ++ "Command: " ++ getPythonCommand ++ nl
            ++ "Make sure Python is installed and in your PATH, "
            ++ "or configure vectorExplorer.pythonPath in settings."))
    l.

Definition dispatch (command : string) (l : listeners) (e : event)
  : listeners :=
  match e with
  | StdoutData data =>
      {| outputData := outputData l ++ Buffer_toString h data;
         errorData := errorData l;
         settled := settled l |}
  | StderrData data =>
      {| outputData := outputData l;
         errorData := errorData l ++ Buffer_toString h data;
         settled := settled l |}
  | Close code => onClose command code l
  | ProcessError message => onError message l
  end.

Definition run_listeners (command : string) (events : list event)
  : listeners :=
  fold_left (dispatch command) events listening.

Definition promise_of (settlement : option (result json)) : promise json :=
  match settlement with
  | Some (Ok v) => Resolved v
  | Some (Throw e) => Rejected e
  | None => Pending
  end.

Definition loadWithPython (dbPath : string) (t : dbType)
  : M (promise json) :=
  if negb (existsSync h (pythonScriptPath t)) then
    ret (Rejected ("Python adapter not found: " ++ pythonScriptPath t))
  else
    let command := commandLine dbPath t in
    log_spawn command ;;
    ret (promise_of
           (settled (run_listeners command
                       (spawn h command (extensionPath h))))).

(** *** [loadVectorDB] *)

Definition undetected (dbPath : string) : M (promise json) :=
  stat <- lift (statSync h dbPath) ;;
  if isFile stat then
    let ext := path_extname h dbPath in
    throw ("Unable to detect database type for file: "
           ++ path_basename h dbPath ++ nl
           ++ "File extension: " ++ or_else (Some ext) "none" ++ nl
           ++ "Expected: .faiss or .index file" ++ nl
           ++ "Path: " ++ dbPath)
  else if isDirectory stat then
    entries <- lift (readdirSync h dbPath) ;;
    let dirContents := join ", " (firstn 10 (map name entries)) in
    again <- lift (readdirSync h dbPath) ;;
    throw ("Unable to detect database type for directory: "
           ++ path_basename h dbPath ++ nl
           ++ "Looking for: chroma.sqlite3, index.faiss, "
           ++ "or any .faiss/.index files in subdirectories" ++ nl
           ++ "Directory contains: " ++ dirContents
           ++ (if (10 <? List.length again)%nat then "..." else "") ++ nl
           ++ "Path: " ++ dbPath)
  else
    throw ("Path is neither a file nor a directory: " ++ dbPath).

Definition loadVectorDB_body (dbPath : string) : M (promise json) :=
  if negb (existsSync h dbPath) then
    throw ("Path does not exist: " ++ dbPath)
  else
    set_detectedPath None ;;
    detected <- detectDatabaseType dbPath ;;
    match detected with
    | None => undetected dbPath
    | Some t =>
        stored <- get_detectedPath ;;
        let actualPath := or_else stored dbPath in
        loadWithPython actualPath t
    end.

(** An [async] function: what its body throws rejects the promise it
    returns. *)
Definition loadVectorDB (dbPath : string) (s : state)
  : promise json * state :=
  match loadVectorDB_body dbPath s with
  | (Ok p, s') => (p, s')
  | (Throw e, s') => (Rejected e, s')
  end.

End WithHost.

End Loader.

(** ** The search order the specification describes *)

Module SearchOrder.
Import Loader.

Definition isFaissFile (entry : Dirent) : bool :=
  isFile (dirent_kind entry) && isFaissName (name entry).

(** Every FAISS-named file within [levels] directory levels of [dirPath]:
    the files of a directory first, in listing order, then the contents of
    each of its sub-directories outside the denylist, in listing order,
    depth-first.  A directory that cannot be listed contributes nothing. *)
Fixpoint faissFilesWithin (h : Host) (levels : nat) (dirPath : string)
  : list string :=
  match levels with
  | 0 => []
  | S deeper =>
      match readdirSync h dirPath with
      | Throw _ => []
      | Ok entries =>
          map (fun entry => path_join h dirPath (name entry))
              (filter isFaissFile entries)
          ++ flat_map
               (fun entry =>
                  faissFilesWithin h deeper (path_join h dirPath (name entry)))
               (filter isSearchedDir entries)
      end
  end.

(** The candidates of a search started at depth [currentDepth] and bounded
    by [maxDepth]: directories at depths [currentDepth .. maxDepth] are
    read. *)
Definition faissSearchOrder (h : Host) (dirPath : string)
  (currentDepth maxDepth : nat) : list string :=
  faissFilesWithin h (S maxDepth - currentDepth) dirPath.

End SearchOrder.

(** ** A concrete host for worked examples *)

Module Demo.

(** A directory tree. *)
Inductive tree : Type :=
| file
| dir (children : list (string * tree)).

Inductive node : Type :=
| NFile
| NDir (entries : list Dirent).

Definition kind_of (t : tree) : kind :=
  match t with
  | file => File
  | dir _ => Directory
  end.

(** The nodes of a tree placed at path [p], keyed by their full path. *)
Fixpoint mount (p : string) (t : tree) : list (string * node) :=
  match t with
  | file => [(p, NFile)]
  | dir children =>
      (p, NDir (map (fun c : string * tree => mkDirent (fst c) (kind_of (snd c)))
                   children))
      :: flat_map (fun c : string * tree =>
                     let (n, sub) := c in mount (p ++ "/" ++ n) sub)
                  children
  end.

Fixpoint lookup (p : string) (nodes : list (string * node)) : option node :=
  match nodes with
  | [] => None
  | (q, n) :: rest => if q =? p then Some n else lookup p rest
  end.

(** Index just past the last occurrence of [c] in [s], or [0]. *)
Fixpoint after_last (c : ascii) (s : string) : nat :=
  match s with
  | EmptyString => 0
  | String a rest =>
      let k := after_last c rest in
      if (0 <? k)%nat then S k
      else if Ascii.eqb a c then 1 else 0
  end.

Definition basename (p : string) : string :=
  let k := after_last "/" p in
  substring k (String.length p - k) p.

Definition extname (p : string) : string :=
  let b := basename p in
  let k := after_last "." b in
  if (k <=? 1)%nat then "" else substring (k - 1) (String.length b - (k - 1)) b.

(** Integers as JavaScript numbers, and back to text. *)
Definition float_of_Z (z : Z) : float :=
  if (z <? 0)%Z then PrimFloat.opp (PrimFloat.of_uint63 (Uint63.of_Z (- z)))
  else PrimFloat.of_uint63 (Uint63.of_Z z).

Definition integer_text (f : float) : string :=
  match Prim2SF f with
  | S754_zero _ => "0"
  | S754_infinity false => "Infinity"
  | S754_infinity true => "-Infinity"
  | S754_nan => "NaN"
  | S754_finite sign m e =>
      let magnitude :=
        match e with
        | Z0 => Zpos m
        | Zpos k => Z.shiftl (Zpos m) (Zpos k)
        | Zneg k => Z.shiftr (Zpos m) (Zpos k)
        end in
      String.append (if sign then "-" else "") (string_of_Z magnitude)
  end.

(** A reader for the JSON documents of the examples: objects, arrays,
    strings without escapes, integers, [true], [false] and [null]. *)
Inductive token : Type :=
| LBrace | RBrace | LBracket | RBracket | Colon | Comma
| TString (s : string)
| TNumber (z : Z)
| TTrue | TFalse | TNull.

Definition is_digit (c : ascii) : bool :=
  let n := nat_of_ascii c in ((48 <=? n) && (n <=? 57))%nat.

Definition is_space (c : ascii) : bool :=
  let n := nat_of_ascii c in
  ((n =? 32) || (n =? 9) || (n =? 10) || (n =? 13))%nat.

Fixpoint string_body (s : string) : option (string * string) :=
  match s with
  | EmptyString => None
  | String c rest =>
      if Ascii.eqb c (ascii_of_nat 34) then Some (EmptyString, rest)
      else if Ascii.eqb c (ascii_of_nat 92) then None
      else match string_body rest with
           | Some (body, after) => Some (String c body, after)
           | None => None
           end
  end.

Fixpoint digits (acc : Z) (s : string) : Z * string :=
  match s with
  | EmptyString => (acc, s)
  | String c rest =>
      if is_digit c
      then digits (10 * acc + Z.of_nat (nat_of_ascii c - 48)) rest
      else (acc, s)
  end.

Definition drop (n : nat) (s : string) : string :=
  substring n (String.length s - n) s.

Definition push (t : token) (ts : option (list token)) : option (list token) :=
  option_map (cons t) ts.

Fixpoint lex (fuel : nat) (s : string) : option (list token) :=
  match fuel with
  | 0 => None
  | S fuel' =>
      match s with
      | EmptyString => Some []
      | String c rest =>
          if is_space c then lex fuel' rest
          else if Ascii.eqb c "{" then push LBrace (lex fuel' rest)
          else if Ascii.eqb c "}" then push RBrace (lex fuel' rest)
          else if Ascii.eqb c "[" then push LBracket (lex fuel' rest)
          else if Ascii.eqb c "]" then push RBracket (lex fuel' rest)
          else if Ascii.eqb c ":" then push Colon (lex fuel' rest)
          else if Ascii.eqb c "," then push Comma (lex fuel' rest)
          else if Ascii.eqb c (ascii_of_nat 34) then
            match string_body rest with
            | Some (body, after) => push (TString body) (lex fuel' after)
            | None => None
            end
          else if Ascii.eqb c "-" then
            match rest with
            | String d _ =>
                if is_digit d
                then let (z, after) := digits 0 rest in
                     push (TNumber (- z)) (lex fuel' after)
                else None
            | EmptyString => None
            end
          else if is_digit c then
            let (z, after) := digits 0 s in
            push (TNumber z) (lex fuel' after)
          else if prefix "true" s then push TTrue (lex fuel' (drop 4 s))
          else if prefix "false" s then push TFalse (lex fuel' (drop 5 s))
          else if prefix "null" s then push TNull (lex fuel' (drop 4 s))
          else None
      end
  end.

Fixpoint parse_value (fuel : nat) (ts : list token)
  : option (json * list token) :=
  match fuel with
  | 0 => None
  | S fuel' =>
      match ts with
      | TNull :: r => Some (JNull, r)
      | TTrue :: r => Some (JBool true, r)
      | TFalse :: r => Some (JBool false, r)
      | TNumber z :: r => Some (JNumber (float_of_Z z), r)
      | TString s :: r => Some (JString s, r)
      | LBracket :: RBracket :: r => Some (JArray [], r)
      | LBracket :: r =>
          match parse_value fuel' r with
          | Some (v, r') => parse_array fuel' [v] r'
          | None => None
          end
      | LBrace :: RBrace :: r => Some (JObject [], r)
      | LBrace :: TString k :: Colon :: r =>
          match parse_value fuel' r with
          | Some (v, r') => parse_object fuel' [(k, v)] r'
          | None => None
          end
      | _ => None
      end
  end
with parse_array (fuel : nat) (acc : list json) (ts : list token)
  : option (json * list token) :=
  match fuel with
  | 0 => None
  | S fuel' =>
      match ts with
      | RBracket :: r => Some (JArray (rev acc), r)
      | Comma :: r =>
          match parse_value fuel' r with
          | Some (v, r') => parse_array fuel' (v :: acc) r'
          | None => None
          end
      | _ => None
      end
  end
with parse_object (fuel : nat) (acc : list (string * json)) (ts : list token)
  : option (json * list token) :=
  match fuel with
  | 0 => None
  | S fuel' =>
      match ts with
      | RBrace :: r => Some (JObject (rev acc), r)
      | Comma :: TString k :: Colon :: r =>
          match parse_value fuel' r with
          | Some (v, r') => parse_object fuel' ((k, v) :: acc) r'
          | None => None
          end
      | _ => None
      end
  end.

Definition parse (s : string) : result json :=
  match lex (S (String.length s)) s with
  | Some ts =>
      match parse_value (S (List.length ts)) ts with
      | Some (v, []) => Ok v
      | _ => Throw "Unexpected token in JSON"
      end
  | None => Throw "Unexpected token in JSON"
  end.

(** The extension's own directory, with both adapters installed. *)
Definition extension : tree :=
  dir [("python", dir [("faiss_adapter.py", file);
                       ("chroma_adapter.py", file)])].

(** A POSIX host holding [t] at [root] and the extension at [/ext]; the
    child started by a command emits [adapter command]. *)
Definition host (root : string) (t : tree) (adapter : string -> list event)
  : Host :=
  let nodes := (mount root t ++ mount "/ext" extension)%list in
  {| existsSync p :=
       match lookup p nodes with Some _ => true | None => false end;
     statSync p :=
       match lookup p nodes with
       | Some NFile => Ok File
       | Some (NDir _) => Ok Directory
       | None => Throw ("ENOENT: no such file or directory, stat '" ++ p ++ "'")
       end;
     readdirSync p :=
       match lookup p nodes with
       | Some (NDir entries) => Ok entries
       | Some NFile => Throw ("ENOTDIR: not a directory, scandir '" ++ p ++ "'")
       | None =>
           Throw ("ENOENT: no such file or directory, scandir '" ++ p ++ "'")
       end;
     path_join a b := a ++ "/" ++ b;
     path_extname := extname;
     path_basename := basename;
     extensionPath := "/ext";
     pythonPath := None;
     platform := "linux";
     spawn command cwd := adapter command;
     JSON_parse := parse;
     Number_toString := integer_text;
     Buffer_toString := string_of_list_byte |}.

(** A host on which every path is a directory that cannot be listed. *)
Definition locked : Host :=
  {| existsSync p := false;
     statSync p := Ok Directory;
     readdirSync p := Throw ("EACCES: permission denied, scandir '" ++ p ++ "'");
     path_join a b := a ++ "/" ++ b;
     path_extname := extname;
     path_basename := basename;
     extensionPath := "/ext";
     pythonPath := None;
     platform := "linux";
     spawn command cwd := [];
     JSON_parse := parse;
     Number_toString := integer_text;
     Buffer_toString := string_of_list_byte |}.

Definition bytes (s : string) : Buffer := list_byte_of_string s.

Definition fresh : Loader.state :=
  {| Loader._detectedPath := None; Loader.spawned := [] |}.

(** A FAISS file two directories below the input, under an upper-case
    extension; the same four directories below; and a directory whose
    sub-directory is listed before its own index file. *)
Definition nested2 : tree :=
  dir [("README.md", file);
       ("store", dir [("shard", dir [("Vectors.FAISS", file)])])].

Definition nested4 : tree :=
  dir [("l1", dir [("l2", dir [("l3", dir [("l4",
         dir [("deep.faiss", file)])])])])].

Definition nested3 : tree :=
  dir [("l1", dir [("l2", dir [("l3", dir [("edge.index", file)])])])].

Definition files_first : tree :=
  dir [("sub", dir [("inner.faiss", file)]);
       (".git", dir [("packed.index", file)]);
       ("top.index", file)].

Definition silent : string -> list event := fun _ => [].

(** A Chroma directory that also holds FAISS files. *)
Definition chroma_and_faiss : tree :=
  dir [("index.faiss", file);
       ("chroma.sqlite3", file);
       ("sub", dir [("other.index", file)])].

(** Adapter documents: a reported failure, and a result whose [count]
    and [dimension] disagree with its single two-component vector. *)
Definition key (k : string) : string := dquote ++ k ++ dquote.

Definition error_document : string :=
  "{" ++ key "error" ++ ":" ++ key "no module named X" ++ "}".

Definition mismatched_document : string :=
  "{" ++ key "type" ++ ":" ++ key "faiss" ++ ","
      ++ key "count" ++ ":5,"
      ++ key "dimension" ++ ":3,"
      ++ key "vectors" ++ ":[{" ++ key "id" ++ ":" ++ key "a" ++ ","
                                ++ key "vector" ++ ":[1,2],"
                                ++ key "text" ++ ":" ++ key "x" ++ ","
                                ++ key "source" ++ ":" ++ key "s" ++ "}]}".

(** A child that logs to standard error around a document written to
    standard output in two chunks, then exits with [code]. *)
Definition chatty (document : string) (code : Z) : string -> list event :=
  fun _ =>
    let half := Nat.div2 (String.length document) in
    [StderrData (bytes "loading index");
     StdoutData (bytes (substring 0 half document));
     StderrData (bytes "warning: slow path");
     StdoutData (bytes (drop half document));
     Close (Some code)].

Definition index_only : tree := dir [("index.faiss", file)].

(** Paths with quote characters in a directory name. *)
Definition quoted_dir_path : string :=
  "/data/a" ++ dquote ++ "b" ++ dquote ++ "/index.faiss".

Definition one_quote_path : string :=
  "/data/5" ++ dquote ++ " disks/index.faiss".

Definition quoted_tree : tree :=
  dir [("a" ++ dquote ++ "b" ++ dquote, dir [("index.faiss", file)]);
       ("5" ++ dquote ++ " disks", dir [("index.faiss", file)])].

End Demo.

(** ** [exportToCSV] *)

Module Exporter.

(** [VectorRecord] and [VectorData] of [types.ts]. *)
Record VectorRecord : Type := mkVectorRecord {
  id : string;
  vector : list float;
  text : string;
  source : string;
  metadata : option (list (string * json))
}.

Record VectorData : Type := mkVectorData {
  type : Loader.dbType;
  count : float;
  dimension : float;
  vectors : list VectorRecord
}.

(** A property value of the objects handed to [stringify]. *)
Inductive cell : Type :=
| Text (s : string)
| Number (n : nat).

(** An object literal: its properties in order. *)
Definition object : Type := list (string * cell).

(** What the exporter calls: the save dialog ([None] when dismissed),
    [fs.writeFileSync], [JSON.stringify], and [stringify] of
    csv-stringify/sync under the options [{header: true, columns}]. *)
Record Desk : Type := mkDesk {
  showSaveDialog : option string;
  writeFileSync : string -> string -> result unit;
  JSON_stringify : json -> string;
  stringify : list object -> list string -> string
}.

Definition columns : list string :=
  ["id"; "text"; "source"; "vector"; "dimension"; "metadata"].

(** The body of the [map] callback. *)
Definition csvRow (d : Desk) (record : VectorRecord) : object :=
  [("id", Text (id record));
   ("text", Text (text record));
   ("source", Text (source record));
   ("vector", Text (JSON_stringify d (JArray (map JNumber (vector record)))));
   ("dimension", Number (List.length (vector record)));
   ("metadata",
    Text (JSON_stringify d
            (JObject (match metadata record with
                      | Some members => members
                      | None => []
                      end))))].

Definition csvData (d : Desk) (data : VectorData) : list object :=
  map (csvRow d) (vectors data).

Definition csvText (d : Desk) (data : VectorData) : string :=
  stringify d (csvData d data) columns.

(** The files written so far are the state; a dismissed dialog writes
    nothing, and a failed write is rethrown under the exporter's message. *)
Definition exportToCSV (d : Desk) (data : VectorData)
  (disk : list (string * string)) : result unit * list (string * string) :=
  match showSaveDialog d with
  | None => (Ok tt, disk)
  | Some fsPath =>
      let csv := csvText d data in
      match writeFileSync d fsPath csv with
      | Ok _ => (Ok tt, (fsPath, csv) :: disk)
      | Throw message => (Throw ("Failed to export CSV: " ++ message), disk)
      end
  end.

(** *** Reading the file back *)

(** The text csv-stringify makes of a property value: a string as it is,
    a number in decimal, a missing property as the empty text. *)
Definition cast (c : option cell) : string :=
  match c with
  | Some (Text s) => s
  | Some (Number n) => string_of_nat n
  | None => ""
  end.

Fixpoint property (key : string) (o : object) : option cell :=
  match o with
  | [] => None
  | (k, v) :: rest => if k =? key then Some v else property key rest
  end.

(** The fields of one record, column by column. *)
Definition fields (cols : list string) (o : object) : list string :=
  map (fun c => cast (property c o)) cols.

(** A reader gives back the header line and the fields of every record. *)
Definition reads_back (reader : string -> option (list (list string)))
  (write : list object -> list string -> string) : Prop :=
  forall (records : list object) (cols : list string),
    cols <> [] ->
    reader (write records cols) = Some (cols :: map (fields cols) records).

Fixpoint position (key : string) (header : list string) : option nat :=
  match header with
  | [] => None
  | k :: rest =>
      if k =? key then Some 0 else option_map S (position key rest)
  end.

(** The field of [row] under the column named [key]. *)
Definition column (key : string) (header row : list string) : option string :=
  match position key header with
  | Some i => nth_error row i
  | None => None
  end.

End Exporter.

(** ** A CSV writer and reader *)

(** The dialect csv-stringify writes by default: fields separated by
    commas, records ended by a line feed, a field holding a comma, a double
    quote or a line feed wrapped in double quotes with its quotes doubled;
    and a reader of that dialect. *)
Module Csv.

Definition is_comma (c : ascii) : bool := (nat_of_ascii c =? 44)%nat.
Definition is_newline (c : ascii) : bool := (nat_of_ascii c =? 10)%nat.
Definition is_quote (c : ascii) : bool := (nat_of_ascii c =? 34)%nat.

Fixpoint needs_quotes (s : string) : bool :=
  match s with
  | EmptyString => false
  | String c rest =>
      is_comma c || is_newline c || is_quote c || needs_quotes rest
  end.

Fixpoint double_quotes (s : string) : string :=
  match s with
  | EmptyString => EmptyString
  | String c rest =>
      if is_quote c then String c (String c (double_quotes rest))
      else String c (double_quotes rest)
  end.

Definition field (s : string) : string :=
  if needs_quotes s then dquote ++ double_quotes s ++ dquote else s.

Fixpoint line (fields : list string) : string :=
  match fields with
  | [] => nl
  | [f] => field f ++ nl
  | f :: rest => field f ++ "," ++ line rest
  end.

Fixpoint lines (rows : list (list string)) : string :=
  match rows with
  | [] => ""
  | row :: rest => line row ++ lines rest
  end.

Definition write (records : list Exporter.object) (cols : list string) : string :=
  lines (cols :: map (Exporter.fields cols) records).

Inductive mode : Type := Start | Bare | Quoted | Closing.

(** One pass over the text: [cur] is the field being read, [row] the
    fields of the record being read and [rows] the records read, both
    latest first. *)
Fixpoint scan (m : mode) (cur : string) (row : list string)
  (rows : list (list string)) (s : string) : option (list (list string)) :=
  match s with
  | EmptyString =>
      match m, row with
      | Start, [] => Some (rev rows)
      | _, _ => None
      end
  | String c rest =>
      match m with
      | Quoted =>
          if is_quote c then scan Closing cur row rows rest
          else scan Quoted (cur ++ String c EmptyString) row rows rest
      | _ =>
          if is_comma c then scan Start "" (cur :: row) rows rest
          else if is_newline c
          then scan Start "" [] (rev (cur :: row) :: rows) rest
          else if is_quote c then
            match m with
            | Start => scan Quoted "" row rows rest
            | Closing => scan Quoted (cur ++ String c EmptyString) row rows rest
            | _ => None
            end
          else
            match m with
            | Closing => None
            | _ => scan Bare (cur ++ String c EmptyString) row rows rest
            end
      end
  end.

Definition read (s : string) : option (list (list string)) :=
  scan Start "" [] [] s.

End Csv.

(** ** A desk and a data set for worked examples *)

Module DemoExport.
Import Exporter.

(** [JSON.stringify] on the values of the examples: integers, and strings
    without characters to escape. *)
Fixpoint print (v : json) : string :=
  match v with
  | JNull => "null"
  | JBool true => "true"
  | JBool false => "false"
  | JNumber n => Demo.integer_text n
  | JString s => dquote ++ s ++ dquote
  | JArray elements => "[" ++ join "," (map print elements) ++ "]"
  | JObject members =>
      "{" ++ join ","
               (map (fun m : string * json =>
                       let (k, v') := m in Demo.key k ++ ":" ++ print v')
                    members)
          ++ "}"
  end.

Definition desk : Desk :=
  {| showSaveDialog := Some "/home/me/vector_export.csv";
     writeFileSync := fun _ _ => Ok tt;
     JSON_stringify := print;
     stringify := Csv.write |}.

(** Two records; the first has a comma, quotes and a line feed in its
    text and a comma in its source. *)
Definition sample : VectorData :=
  {| type := Loader.faiss;
     count := 2;
     dimension := 3;
     vectors :=
       [ {| id := "a";
            vector := [1; 2; 3]%float;
            text := "said " ++ dquote ++ "hi" ++ dquote ++ ", twice" ++ nl
                    ++ "and left";
            source := "notes, v2.txt";
            metadata := None |};
         {| id := "b";
            vector := [];
            text := "";
            source := "plain";
            metadata := Some [("page", JNumber 4)] |} ] |}.

End DemoExport.

(** ** The shell between [spawn] and the adapter *)

(** With [shell: true] the command string is handed to the host shell.
    This is how a POSIX [sh] splits a line of plain and double-quoted text
    into words.  Blanks separate words; a double quote opens and closes a
    quoted stretch, which may hold blanks; inside one, a backslash makes the
    next [$], backquote, double quote or backslash literal and swallows a
    newline.  Expansions, single quotes and operators are left out. *)
Module Shell.

Inductive outcome : Type :=
| Words (ws : list string)
| Unterminated
| Unmodelled.

Definition is_blank (c : ascii) : bool :=
  let n := nat_of_ascii c in ((n =? 32) || (n =? 9))%nat.

Definition is_dquote (c : ascii) : bool := (nat_of_ascii c =? 34)%nat.
Definition is_backslash (c : ascii) : bool := (nat_of_ascii c =? 92)%nat.

(** [$] and the backquote start an expansion, also inside quotes. *)
Definition is_expansion (c : ascii) : bool :=
  let n := nat_of_ascii c in ((n =? 36) || (n =? 96))%nat.

(** Characters with a meaning of their own outside quotes:
    newline, [! # & ' ( ) * ; < > ? [ ] { | } ~] and [=]. *)
Definition is_operator (c : ascii) : bool :=
  existsb (fun n => (nat_of_ascii c =? n)%nat)
    [10; 33; 35; 38; 39; 40; 41; 42; 59; 60; 61; 62; 63; 91; 93;
     123; 124; 125; 126].

Definition add (c : ascii) (word : option string) : option string :=
  match word with
  | Some w => Some (w ++ String c EmptyString)
  | None => Some (String c EmptyString)
  end.

Definition open_word (word : option string) : option string :=
  match word with
  | Some w => Some w
  | None => Some EmptyString
  end.

Definition emit (word : option string) (rest : outcome) : outcome :=
  match word, rest with
  | Some w, Words ws => Words (w :: ws)
  | _, _ => rest
  end.

Fixpoint split (quoted : bool) (word : option string) (s : string)
  : outcome :=
  match s with
  | EmptyString => if quoted then Unterminated else emit word (Words [])
  | String c rest =>
      if quoted then
        if is_dquote c then split false word rest
        else if is_backslash c then
          match rest with
          | EmptyString => Unterminated
          | String d rest' =>
              if is_expansion d || is_dquote d || is_backslash d
              then split true (add d word) rest'
              else if (nat_of_ascii d =? 10)%nat then split true word rest'
              else split true (add c word) rest
          end
        else if is_expansion c then Unmodelled
        else split true (add c word) rest
      else
        if is_blank c then emit word (split false None rest)
        else if is_dquote c then split true (open_word word) rest
        else if is_backslash c || is_expansion c || is_operator c
        then Unmodelled
        else split false (add c word) rest
  end.

(** The words the shell makes of a command line. *)
Definition words (command : string) : outcome := split false None command.

(** Text that stands for itself between double quotes. *)
Definition plain_char (c : ascii) : bool :=
  negb (is_dquote c || is_backslash c || is_expansion c).

Fixpoint plain (s : string) : bool :=
  match s with
  | EmptyString => true
  | String c rest => plain_char c && plain rest
  end.

(** Text that stands for itself, and for one word, without quotes. *)
Definition bare_char (c : ascii) : bool :=
  plain_char c && negb (is_blank c || is_operator c).

Fixpoint bare (s : string) : bool :=
  match s with
  | EmptyString => true
  | String c rest => bare_char c && bare rest
  end.

End Shell.

(** ** Readings of an event trace *)

Module Trace.

(** Text of the chunks written to standard output, in order, each
    decoded on its own as the [data] listener does. *)
Fixpoint stdoutText (h : Host) (events : list event) : string :=
  match events with
  | [] => ""
  | StdoutData data :: rest => Buffer_toString h data ++ stdoutText h rest
  | _ :: rest => stdoutText h rest
  end.


Fixpoint stderrText (h : Host) (events : list event) : string :=
  match events with
  | [] => ""
  | StderrData data :: rest => Buffer_toString h data ++ stderrText h rest
  | _ :: rest => stderrText h rest
  end.



Definition isData (e : event) : bool :=
  match e with StdoutData _ | StderrData _ => true | _ => false end.

(** Only output, no [close] and no [error]. *)
Definition dataOnly (events : list event) : bool := forallb isData events.



(** The host [h] with another child behind [spawn]. *)
Definition withChild (h : Host) (child : string -> string -> list event)
  : Host :=
  {| existsSync := existsSync h;
     statSync := statSync h;
     readdirSync := readdirSync h;
     path_join := path_join h;
     path_extname := path_extname h;
     path_basename := path_basename h;
     extensionPath := extensionPath h;
     pythonPath := pythonPath h;
     platform := platform h;
     spawn := child;
     JSON_parse := JSON_parse h;
     Number_toString := Number_toString h;
     Buffer_toString := Buffer_toString h |}.

End Trace.

(** ** Directories within reach, and the classification of a directory *)

Module Reach.
Import Loader SearchOrder.

(** [Reached h from k to]: [to] lies [k] levels below [from], each level
    an entry of the listing above it that both searches enter: a directory
    other than [.], [..] and [.git]. *)
Inductive Reached (h : Host) : string -> nat -> string -> Prop :=
| reached_here (d : string) : Reached h d 0 d
| reached_below (d : string) (entries : list Dirent) (entry : Dirent)
    (k : nat) (target : string) :
    readdirSync h d = Ok entries ->
    In entry entries ->
    isSearchedDir entry = true ->
    Reached h (path_join h d (name entry)) k target ->
    Reached h d (S k) target.

(** [p] is a FAISS-named file listed in a directory [k] levels below
    [root]. *)
Definition FaissFileAt (h : Host) (root : string) (k : nat) (p : string)
  : Prop :=
  exists (d : string) (entries : list Dirent) (entry : Dirent),
    Reached h root k d
    /\ readdirSync h d = Ok entries
    /\ In entry entries
    /\ isFaissFile entry = true
    /\ p = path_join h d (name entry).

(** [q] is a directory [k] levels below [root] whose listing holds a file
    named [chroma.sqlite3]. *)
Definition ChromaDirAt (h : Host) (root : string) (k : nat) (q : string)
  : Prop :=
  exists entries : list Dirent,
    Reached h root k q
    /\ readdirSync h q = Ok entries
    /\ chromaFileIn entries = true.

(** Every directory within [levels] levels of [dirPath] that lists the
    Chroma sentinel as a file: a directory before its sub-directories, these
    in listing order, depth-first. *)
Fixpoint chromaDirsWithin (h : Host) (levels : nat) (dirPath : string)
  : list string :=
  match levels with
  | 0 => []
  | S deeper =>
      match readdirSync h dirPath with
      | Throw _ => []
      | Ok entries =>
          (if chromaFileIn entries then [dirPath] else [])
          ++ flat_map
               (fun entry =>
                  chromaDirsWithin h deeper (path_join h dirPath (name entry)))
               (filter isSearchedDir entries)
      end
  end.

Definition chromaSearchOrder (h : Host) (dirPath : string)
  (currentDepth maxDepth : nat) : list string :=
  chromaDirsWithin h (S maxDepth - currentDepth) dirPath.

(** The steps of the specification for a directory, in order: the sentinel
    directly inside, the default index directly inside, the first nested
    FAISS file, the first nested Chroma directory, no match. *)
Definition classifyDirectory (h : Host) (dbPath : string)
  : option (dbType * string) :=
  if existsSync h (path_join h dbPath "chroma.sqlite3") then
    Some (chroma, dbPath)
  else if existsSync h (path_join h dbPath "index.faiss") then
    Some (faiss, path_join h dbPath "index.faiss")
  else
    match faissSearchOrder h dbPath 0 3 with
    | p :: _ => Some (faiss, p)
    | [] =>
        match chromaSearchOrder h dbPath 0 3 with
        | q :: _ => Some (chroma, q)
        | [] => None
        end
    end.

(** The classification of any input path: a file by its name, a directory
    by the steps above, anything else, and a path [statSync] fails on, as no
    match. *)
Definition classify (h : Host) (dbPath : string) : option (dbType * string) :=
  match statSync h dbPath with
  | Ok File => if isFaissName dbPath then Some (faiss, dbPath) else None
  | Ok Directory => classifyDirectory h dbPath
  | Ok Other => None
  | Throw _ => None
  end.

End Reach.

(** ** The export command of the extension *)

Module Extension.
Import Exporter.

Inductive notice : Type :=
| WarningMessage (text : string)
| InformationMessage (text : string)
| ErrorMessage (text : string).

(** The handler registered for [vectorExplorer.exportCSV].  [data] is what
    [currentPanel?.getCurrentData()] gives, [None] for [undefined]; the
    result is what is shown to the user and the files on disk. *)
Definition exportCSVCommand (d : Desk) (data : option VectorData)
  (disk : list (string * string)) : list notice * list (string * string) :=
  match data with
  | None => ([WarningMessage "No data to export"], disk)
  | Some data =>
      if (List.length (vectors data) =? 0)%nat then
        ([WarningMessage "No data to export"], disk)
      else
        match exportToCSV d data disk with
        | (Ok _, disk') =>
            ([InformationMessage "Vector data exported successfully"], disk')
        | (Throw message, disk') =>
            ([ErrorMessage ("Failed to export CSV: " ++ message)], disk')
        end
  end.

End Extension.

(** ** The table of the webview, [media/main.js] *)

Module Webview.
Import Exporter.

(** [Array.prototype.slice] with both bounds, negative ones counted from
    the end. *)
Definition slice {A : Type} (start stop : Z) (l : list A) : list A :=
  let len := Z.of_nat (List.length l) in
  let from := if (start <? 0)%Z then Z.max (len + start) 0 else Z.min start len in
  let to := if (stop <? 0)%Z then Z.max (len + stop) 0 else Z.min stop len in
  firstn (Z.to_nat (to - from)) (skipn (Z.to_nat from) l).

(** The white space [String.prototype.trim] removes, among the code units
    below 256. *)
Definition is_white (c : ascii) : bool :=
  existsb (fun n => (nat_of_ascii c =? n)%nat) [9; 10; 11; 12; 13; 32; 160].

Fixpoint trimStart (s : string) : string :=
  match s with
  | EmptyString => EmptyString
  | String c rest => if is_white c then trimStart rest else s
  end.

Fixpoint reverse (acc s : string) : string :=
  match s with
  | EmptyString => acc
  | String c rest => reverse (String c acc) rest
  end.

Definition trim (s : string) : string :=
  reverse "" (trimStart (reverse "" (trimStart s))).

(** [String.prototype.includes] *)
Fixpoint includes (s sub : string) : bool :=
  prefix sub s
  || match s with
     | EmptyString => false
     | String _ rest => includes rest sub
     end.

(** The [data-column] of the three sortable headers. *)
Inductive column : Type := ColumnId | ColumnText | ColumnSource.

Definition column_eqb (a b : column) : bool :=
  match a, b with
  | ColumnId, ColumnId | ColumnText, ColumnText
  | ColumnSource, ColumnSource => true
  | _, _ => false
  end.

Inductive direction : Type := asc | desc.

(** [vector[column]] *)
Definition cell_of (c : column) (record : VectorRecord) : string :=
  match c with
  | ColumnId => id record
  | ColumnText => text record
  | ColumnSource => source record
  end.

(** The script's variables. *)
Record view : Type := mkView {
  allVectors : list VectorRecord;
  filteredVectors : list VectorRecord;
  currentPage : Z;
  sortColumn : column;
  sortDirection : direction
}.

Definition initial : view :=
  {| allVectors := []; filteredVectors := []; currentPage := 1;
     sortColumn := ColumnId; sortDirection := asc |}.

Definition itemsPerPage : Z := 50.

(** [Math.ceil(length / itemsPerPage)] *)
Definition totalPages (rows : list VectorRecord) : Z :=
  (Z.of_nat (List.length rows) + (itemsPerPage - 1)) / itemsPerPage.

(** What [renderTable] puts on the page: the rows, the page line and the
    state of the two buttons. *)
Record table : Type := mkTable {
  pageVectors : list VectorRecord;
  pageInfo : string;
  prevDisabled : bool;
  nextDisabled : bool
}.

Definition renderTable (v : view) : table :=
  let rows := filteredVectors v in
  let startIdx := ((currentPage v - 1) * itemsPerPage)%Z in
  let endIdx := Z.min (startIdx + itemsPerPage) (Z.of_nat (List.length rows)) in
  {| pageVectors := slice startIdx endIdx rows;
     pageInfo :=
       "Page " ++ string_of_Z (currentPage v) ++ " of "
       ++ string_of_Z (if (totalPages rows =? 0)%Z then 1%Z else totalPages rows)
       ++ " (" ++ string_of_nat (List.length rows) ++ " items)";
     prevDisabled := (currentPage v <=? 1)%Z;
     nextDisabled := (totalPages rows <=? currentPage v)%Z |}.

(** The text shown in a row, and the class that colours it. *)
Definition truncatedText (record : VectorRecord) : string :=
  if (300 <? String.length (text record))%nat
  then substring 0 300 (text record) ++ "..."
  else text record.

Definition getTextLengthClass (length : nat) : string :=
  if (length <? 100)%nat then "text-short"
  else if (length <? 500)%nat then "text-medium"
  else "text-long".

(** [data] is of the declared type, which has no [error] member. *)
Definition handleVectorData (data : VectorData) (v : view) : view :=
  {| allVectors := vectors data;
     filteredVectors := vectors data;
     currentPage := 1;
     sortColumn := sortColumn v;
     sortDirection := sortDirection v |}.

Definition matches (query : string) (record : VectorRecord) : bool :=
  includes (toLowerCase (id record)) query
  || includes (toLowerCase (text record)) query
  || includes (toLowerCase (source record)) query.

(** [value] is the content of the search box. *)
Definition handleSearch (value : string) (v : view) : view :=
  let query := trim (toLowerCase value) in
  {| allVectors := allVectors v;
     filteredVectors :=
       if query =? "" then allVectors v
       else filter (matches query) (allVectors v);
     currentPage := 1;
     sortColumn := sortColumn v;
     sortDirection := sortDirection v |}.

(** The comparator handed to [sort]. *)
Definition compareRows (c : column) (d : direction) (a b : VectorRecord) : Z :=
  let aVal := toLowerCase (or_else (Some (cell_of c a)) "") in
  let bVal := toLowerCase (or_else (Some (cell_of c b)) "") in
  match String.compare aVal bVal with
  | Lt => match d with asc => (-1)%Z | desc => 1%Z end
  | Gt => match d with asc => 1%Z | desc => (-1)%Z end
  | Eq => 0%Z
  end.

(** [Array.prototype.sort] is the engine's; it is a parameter here. *)
Definition sorter : Type :=
  (VectorRecord -> VectorRecord -> Z) -> list VectorRecord -> list VectorRecord.

Definition handleSort (sort : sorter) (c : column) (v : view) : view :=
  let d :=
    if column_eqb (sortColumn v) c
    then match sortDirection v with asc => desc | desc => asc end
    else asc in
  {| allVectors := allVectors v;
     filteredVectors := sort (compareRows c d) (filteredVectors v);
     currentPage := currentPage v;
     sortColumn := c;
     sortDirection := d |}.

Definition changePage (delta : Z) (v : view) : view :=
  {| allVectors := allVectors v;
     filteredVectors := filteredVectors v;
     currentPage := (currentPage v + delta)%Z;
     sortColumn := sortColumn v;
     sortDirection := sortDirection v |}.

(** What the user and the extension can do to the page.  A click on a
    disabled button does not reach its listener. *)
Inductive action : Type :=
| Receive (data : VectorData)
| Search (value : string)
| Sort (c : column)
| Previous
| Next.

Definition possible (v : view) (a : action) : bool :=
  match a with
  | Previous => negb (prevDisabled (renderTable v))
  | Next => negb (nextDisabled (renderTable v))
  | _ => true
  end.

Definition act (sort : sorter) (v : view) (a : action) : view :=
  match a with
  | Receive data => handleVectorData data v
  | Search value => handleSearch value v
  | Sort c => handleSort sort c v
  | Previous => changePage (-1) v
  | Next => changePage 1 v
  end.

(** The views that sequences of possible actions lead to. *)
Inductive Shown (sort : sorter) : view -> Prop :=
| shown_initial : Shown sort initial
| shown_after (v : view) (a : action) :
    Shown sort v -> possible v a = true -> Shown sort (act sort v a).

(** Insertion sort, a stable stand-in for the engine's sort in examples. *)
Fixpoint insert (cmp : VectorRecord -> VectorRecord -> Z) (x : VectorRecord)
  (l : list VectorRecord) : list VectorRecord :=
  match l with
  | [] => [x]
  | y :: rest =>
      if (cmp x y <=? 0)%Z then x :: l else y :: insert cmp x rest
  end.

Definition insertion_sort : sorter :=
  fun cmp l => fold_right (insert cmp) [] l.

End Webview.

(** ** Rows for worked examples of the table *)

Module DemoTable.
Import Exporter.

Definition row (name body origin : string) : VectorRecord :=
  {| id := name; vector := []; text := body; source := origin;
     metadata := None |}.

(** One hundred and twenty rows, and three rows to search and sort. *)
Definition many : list VectorRecord := repeat (row "chunk" "text" "file") 120.

Definition few : VectorData :=
  {| type := Loader.faiss;
     count := 3;
     dimension := 0;
     vectors := [row "b-2" "Installing FAISS" "setup.md";
                 row "A-1" "Chroma notes" "Notes.md";
                 row "c-3" "faiss index layout" "design.md"] |}.

End DemoTable.

(** * Properties *)

Import Loader SearchOrder Trace Exporter.
Local Open Scope loader_scope.

(** ** Proof support *)

(** Case analysis on the scrutinee of the first [match] of the goal. *)
Ltac case_match :=
  match goal with
  | |- context [match ?x with _ => _ end] => destruct x eqn:?
  end.

Ltac unfold_loader :=
  unfold loadVectorDB, loadVectorDB_body, undetected, loadWithPython,
    detectDatabaseType, try_catch, bind, lift, ret, throw,
    set_detectedPath, get_detectedPath, log_spawn in *.

Lemma rcatch_null_returns {A} (body : result (option A)) :
  exists r, rcatch body (fun _ => Ok None) = Ok r.
Proof. destruct body; simpl; eauto. Qed.

(** Neither search lets an exception escape. *)
Lemma searchFaissLevels_returns (h : Host) (levels : nat) (dirPath : string) :
  exists r, searchFaissLevels h levels dirPath = Ok r.
Proof. destruct levels; simpl; [eauto | apply rcatch_null_returns]. Qed.

Lemma searchChromaLevels_returns (h : Host) (levels : nat) (dirPath : string) :
  exists r, searchChromaLevels h levels dirPath = Ok r.
Proof. destruct levels; simpl; [eauto | apply rcatch_null_returns]. Qed.

(** The recursion on levels is the source's recursion on depth. *)
Lemma searchForFaissFiles_unfold (h : Host) (dirPath : string)
  (currentDepth maxDepth : nat) :
  searchForFaissFiles h dirPath currentDepth maxDepth =
  if (maxDepth <? currentDepth)%nat then Ok None
  else
    rcatch
      (rbind (readdirSync h dirPath) (fun entries =>
         match faissFileIn h dirPath entries with
         | Some fullPath => Ok (Some fullPath)
         | None =>
             searchSubdirs h
               (fun subDirPath =>
                  searchForFaissFiles h subDirPath (currentDepth + 1) maxDepth)
               dirPath entries
         end))
      (fun _ => Ok None).
Proof.
  unfold searchForFaissFiles.
  destruct (Nat.ltb_spec maxDepth currentDepth) as [Hlt | Hle].
  - replace (S maxDepth - currentDepth) with 0 by lia. reflexivity.
  - replace (S maxDepth - currentDepth)
      with (S (S maxDepth - (currentDepth + 1))) by lia.
    reflexivity.
Qed.

Lemma searchForChromaDB_unfold (h : Host) (dirPath : string)
  (currentDepth maxDepth : nat) :
  searchForChromaDB h dirPath currentDepth maxDepth =
  if (maxDepth <? currentDepth)%nat then Ok None
  else
    rcatch
      (rbind (readdirSync h dirPath) (fun entries =>
         if chromaFileIn entries then Ok (Some dirPath)
         else
           searchSubdirs h
             (fun subDirPath =>
                searchForChromaDB h subDirPath (currentDepth + 1) maxDepth)
             dirPath entries))
      (fun _ => Ok None).
Proof.
  unfold searchForChromaDB.
  destruct (Nat.ltb_spec maxDepth currentDepth) as [Hlt | Hle].
  - replace (S maxDepth - currentDepth) with 0 by lia. reflexivity.
  - replace (S maxDepth - currentDepth)
      with (S (S maxDepth - (currentDepth + 1))) by lia.
    reflexivity.
Qed.

(** ** Detection *)

(** C4. Type detection is total: for every host, input path and loader
    state it completes with a verdict, FAISS, Chroma or no match, and never
    throws, whatever [statSync] and [readdirSync] throw on the way. *)
Theorem detectDatabaseType_total (h : Host) (dbPath : string) (s : state) :
  exists (verdict : option dbType) (s' : state),
    detectDatabaseType h dbPath s = (Ok verdict, s').
Proof.
  unfold_loader.
  repeat (case_match; simpl); eauto.
Qed.

(** A failing [readdirSync] ends the search, not the detection. *)
Example detect_unreadable_directory :
  readdirSync Demo.locked "/data" =
  Throw "EACCES: permission denied, scandir '/data'"
  /\ detectDatabaseType Demo.locked "/data" Demo.fresh = (Ok None, Demo.fresh).
Proof. split; reflexivity. Qed.

(** C6. A directory in which [chroma.sqlite3] exists is classified as
    Chroma with the directory itself as resolved path, whatever else the
    host holds: the test comes before every FAISS test. *)
Theorem chroma_sentinel_first (h : Host) (dbPath : string) (s : state) :
  statSync h dbPath = Ok Directory ->
  existsSync h (path_join h dbPath "chroma.sqlite3") = true ->
  detectDatabaseType h dbPath s =
  (Ok (Some chroma), {| _detectedPath := Some dbPath; spawned := spawned s |}).
Proof.
  intros Hstat Hchroma. unfold_loader.
  rewrite Hstat. simpl. rewrite Hchroma. reflexivity.
Qed.

(** ** Loading *)

(** The existence test comes first and ends the call. *)
Lemma loadVectorDB_missing (h : Host) (dbPath : string) (s : state) :
  existsSync h dbPath = false ->
  loadVectorDB h dbPath s = (Rejected ("Path does not exist: " ++ dbPath), s).
Proof.
  intros Hmissing. unfold_loader. rewrite Hmissing. reflexivity.
Qed.

(** C5. For a path that does not exist the load is rejected with the
    message "Path does not exist: " followed by the path; the loader state
    is left as it was, so no command was spawned. *)
Theorem missing_path_rejected (h : Host) (dbPath : string) (s : state) :
  existsSync h dbPath = false ->
  loadVectorDB h dbPath s = (Rejected ("Path does not exist: " ++ dbPath), s)
  /\ spawned (snd (loadVectorDB h dbPath s)) = spawned s.
Proof.
  intros Hmissing. rewrite (loadVectorDB_missing h dbPath s Hmissing).
  split; reflexivity.
Qed.

(** Detection writes [_detectedPath] only, and neither its verdict nor the
    path it stores depends on the state it starts from. *)
Lemma detectDatabaseType_state (h : Host) (dbPath : string) :
  exists (verdict : option dbType) (write : option (option string)),
    forall s,
      detectDatabaseType h dbPath s =
      (Ok verdict,
       {| _detectedPath := match write with
                           | Some p => p
                           | None => _detectedPath s
                           end;
          spawned := spawned s |}).
Proof.
  unfold_loader.
  destruct (statSync h dbPath) as [k | e]; simpl.
  2: { exists None, None. intros [d c]. reflexivity. }
  destruct (isFile k).
  { destruct (endsWith _ _ || endsWith _ _).
    - exists (Some faiss), (Some (Some dbPath)). reflexivity.
    - exists None, None. intros [d c]. reflexivity. }
  destruct (isDirectory k).
  2: { exists None, None. intros [d c]. reflexivity. }
  destruct (existsSync h (path_join h dbPath "chroma.sqlite3")).
  { exists (Some chroma), (Some (Some dbPath)). reflexivity. }
  destruct (existsSync h (path_join h dbPath "index.faiss")).
  { eexists (Some faiss), (Some (Some _)). reflexivity. }
  destruct (searchForFaissFiles h dbPath 0 3) as [foundFaiss | e]; simpl.
  2: { exists None, None. intros [d c]. reflexivity. }
  destruct (truthy foundFaiss).
  { eexists (Some faiss), (Some _). reflexivity. }
  destruct (searchForChromaDB h dbPath 0 3) as [foundChroma | e]; simpl.
  2: { exists None, None. intros [d c]. reflexivity. }
  destruct (truthy foundChroma).
  { eexists (Some chroma), (Some _). reflexivity. }
  exists None, None. intros [d c]. reflexivity.
Qed.

(** Once the path is known to exist, a load behaves as if the loader had
    just been created, up to the commands already on record. *)
Lemma loadVectorDB_from_reset (h : Host) (dbPath : string) :
  existsSync h dbPath = true ->
  exists (outcome : promise json) (stored : option string)
         (commands : list string),
    forall s,
      loadVectorDB h dbPath s =
      (outcome,
       {| _detectedPath := stored; spawned := (spawned s ++ commands)%list |}).
Proof.
  intros Hexists.
  destruct (detectDatabaseType_state h dbPath) as (verdict & write & Hdetect).
  unfold loadVectorDB, loadVectorDB_body. rewrite Hexists. simpl.
  unfold bind at 1. unfold set_detectedPath at 1. unfold bind at 1.
  set (stored := match write with Some p => p | None => None end).
  assert (Hd : forall s,
             detectDatabaseType h dbPath
               {| _detectedPath := None; spawned := spawned s |} =
             (Ok verdict, {| _detectedPath := stored; spawned := spawned s |})).
  { intros s. rewrite Hdetect. subst stored. destruct write; reflexivity. }
  destruct verdict as [t |].
  - unfold loadWithPython, bind, get_detectedPath, ret, log_spawn.
    destruct (negb (existsSync h (pythonScriptPath h t))) eqn:Hscript.
    + eexists _, stored, []. intros s. rewrite Hd. simpl.
      rewrite Hscript, app_nil_r. reflexivity.
    + eexists _, stored, [_]. intros s. rewrite Hd. simpl.
      rewrite Hscript. reflexivity.
  - unfold undetected, bind, lift, throw.
    destruct (statSync h dbPath) as [k | e].
    2: { eexists _, stored, []. intros s. rewrite Hd, app_nil_r. reflexivity. }
    destruct (isFile k).
    { eexists _, stored, []. intros s. rewrite Hd, app_nil_r. reflexivity. }
    destruct (isDirectory k).
    2: { eexists _, stored, []. intros s. rewrite Hd, app_nil_r. reflexivity. }
    destruct (readdirSync h dbPath) as [entries | e].
    + eexists _, stored, []. intros s. rewrite Hd, app_nil_r. reflexivity.
    + eexists _, stored, []. intros s. rewrite Hd, app_nil_r. reflexivity.
Qed.

(** C10. A load clears [_detectedPath] before it detects: when the input
    path exists, starting from any state is the same as starting with the
    field at [null].  Hence for two arbitrary states of the loader, that is
    after any earlier calls, the same input path on the same host gives the
    same outcome, spawns the same commands and, when the path exists, leaves
    the same path stored. *)
Theorem loadVectorDB_forgets_earlier_calls (h : Host) (dbPath : string)
  (s1 s2 : state) :
  (existsSync h dbPath = true ->
   loadVectorDB h dbPath s1 =
   loadVectorDB h dbPath {| _detectedPath := None; spawned := spawned s1 |})
  /\ fst (loadVectorDB h dbPath s1) = fst (loadVectorDB h dbPath s2)
  /\ (exists commands,
        spawned (snd (loadVectorDB h dbPath s1)) = (spawned s1 ++ commands)%list
        /\ spawned (snd (loadVectorDB h dbPath s2)) = (spawned s2 ++ commands)%list)
  /\ (existsSync h dbPath = true ->
      _detectedPath (snd (loadVectorDB h dbPath s1)) =
      _detectedPath (snd (loadVectorDB h dbPath s2))).
Proof.
  destruct (existsSync h dbPath) eqn:Hexists.
  - destruct (loadVectorDB_from_reset h dbPath Hexists)
      as (outcome & stored & commands & Hload).
    rewrite !Hload. simpl. repeat split; eauto.
  - rewrite !(loadVectorDB_missing h dbPath _ Hexists). simpl.
    repeat split; try discriminate.
    exists []. rewrite !app_nil_r. split; reflexivity.
Qed.

Lemma loadVectorDB_forgets_earlier_calls_witness :
  let h := Demo.host "/data" Demo.nested2
             (Demo.chatty Demo.mismatched_document 0) in
  let used := {| _detectedPath := Some "/elsewhere/index.faiss";
                 spawned := ["python3 earlier"] |} in
  loadVectorDB h "/data" used =
  loadVectorDB h "/data"
    {| _detectedPath := None; spawned := ["python3 earlier"] |}
  /\ fst (loadVectorDB h "/data" used) = fst (loadVectorDB h "/data" Demo.fresh)
  /\ _detectedPath (snd (loadVectorDB h "/data" used)) =
     Some "/data/store/shard/Vectors.FAISS".
Proof.
  intros h used.
  destruct (loadVectorDB_forgets_earlier_calls h "/data" used Demo.fresh)
    as (Hreset & Houtcome & _ & Hstored).
  split; [exact (Hreset eq_refl) |].
  split; [exact Houtcome |].
  rewrite (Hstored eq_refl). reflexivity.
Defined.

(** ** The recursive search against the specified order *)

Section SearchRefinement.

Variable h : Host.

(** [path.join] never returns the empty string. *)
Hypothesis path_join_nonempty : forall a b, path_join h a b <> "".

Lemma truthy_path_join (a b : string) : truthy (Some (path_join h a b)) = true.
Proof.
  simpl. destruct (String.eqb_spec (path_join h a b) "") as [E | _].
  - now apply path_join_nonempty in E.
  - reflexivity.
Qed.

Lemma faissFileIn_first (dirPath : string) (entries : list Dirent) :
  faissFileIn h dirPath entries =
  hd_error (map (fun entry => path_join h dirPath (name entry))
                (filter isFaissFile entries)).
Proof.
  induction entries as [| entry rest IH]; simpl; [reflexivity |].
  unfold isFaissFile at 1.
  destruct (isFile (dirent_kind entry) && isFaissName (name entry));
    simpl; [reflexivity | exact IH].
Qed.

Lemma faissFilesWithin_nonempty (levels : nat) :
  forall dirPath, Forall (fun p => p <> "") (faissFilesWithin h levels dirPath).
Proof.
  induction levels as [| deeper IH]; intros dirPath; simpl.
  - constructor.
  - destruct (readdirSync h dirPath) as [entries | e]; [| constructor].
    apply Forall_app; split.
    + apply Forall_map, Forall_forall. intros entry _.
      apply path_join_nonempty.
    + apply Forall_flat_map, Forall_forall. intros entry _. apply IH.
Qed.

Lemma truthy_hd_error (l : list string) :
  Forall (fun p => p <> "") l ->
  truthy (hd_error l) = match l with [] => false | _ :: _ => true end.
Proof.
  intros Hl. destruct l as [| p rest]; simpl; [reflexivity |].
  inversion Hl as [| ? ? Hp _]; subst.
  destruct (String.eqb_spec p "") as [E | _]; [contradiction | reflexivity].
Qed.

(** The loop over sub-directories returns the head of the concatenated
    candidates, when the recursive search returns the head of each. *)
Lemma searchSubdirs_first (recur : string -> result (option string))
  (candidates : string -> list string) (dirPath : string) :
  (forall p, recur p = Ok (hd_error (candidates p))) ->
  (forall p, Forall (fun x => x <> "") (candidates p)) ->
  forall entries,
    searchSubdirs h recur dirPath entries =
    Ok (hd_error
          (flat_map (fun entry => candidates (path_join h dirPath (name entry)))
                    (filter isSearchedDir entries))).
Proof.
  intros Hrecur Hnonempty entries.
  induction entries as [| entry rest IH]; simpl; [reflexivity |].
  destruct (isSearchedDir entry); simpl; [| exact IH].
  rewrite Hrecur. simpl.
  rewrite (truthy_hd_error _ (Hnonempty _)).
  destruct (candidates (path_join h dirPath (name entry))) as [| p more];
    simpl; [exact IH | reflexivity].
Qed.

Lemma searchFaissLevels_first (levels : nat) :
  forall dirPath,
    searchFaissLevels h levels dirPath =
    Ok (hd_error (faissFilesWithin h levels dirPath)).
Proof.
  induction levels as [| deeper IH]; intros dirPath; simpl; [reflexivity |].
  destruct (readdirSync h dirPath) as [entries | e]; simpl; [| reflexivity].
  rewrite faissFileIn_first.
  destruct (map _ (filter isFaissFile entries)) as [| p more]; simpl.
  - rewrite (searchSubdirs_first _ (faissFilesWithin h deeper) dirPath IH
               (faissFilesWithin_nonempty deeper)).
    reflexivity.
  - reflexivity.
Qed.

Lemma searchForFaissFiles_first (dirPath : string)
  (currentDepth maxDepth : nat) :
  searchForFaissFiles h dirPath currentDepth maxDepth =
  Ok (hd_error (faissSearchOrder h dirPath currentDepth maxDepth)).
Proof. apply searchFaissLevels_first. Qed.

(** Below the depth bound nothing is a candidate. *)
Lemma faissSearchOrder_beyond (dirPath : string)
  (currentDepth maxDepth : nat) :
  maxDepth < currentDepth ->
  faissSearchOrder h dirPath currentDepth maxDepth = [].
Proof.
  intros Hdeep. unfold faissSearchOrder.
  replace (S maxDepth - currentDepth) with 0 by lia. reflexivity.
Qed.

Lemma detect_first_candidate (dbPath : string) (s : state)
  (first : string) (rest : list string) :
  statSync h dbPath = Ok Directory ->
  existsSync h (path_join h dbPath "chroma.sqlite3") = false ->
  existsSync h (path_join h dbPath "index.faiss") = false ->
  faissSearchOrder h dbPath 0 3 = first :: rest ->
  detectDatabaseType h dbPath s =
  (Ok (Some faiss),
   {| _detectedPath := Some first; spawned := spawned s |}).
Proof.
  intros Hstat Hchroma Hindex Horder.
  unfold_loader. rewrite Hstat. simpl. rewrite Hchroma, Hindex.
  rewrite searchForFaissFiles_first, Horder. simpl.
  pose proof (faissFilesWithin_nonempty 4 dbPath) as Hne.
  change (faissFilesWithin h 4 dbPath) with (faissSearchOrder h dbPath 0 3) in Hne.
  rewrite Horder in Hne. inversion Hne as [| ? ? Hfirst _]; subst.
  destruct (String.eqb_spec first "") as [E | _]; [contradiction |].
  reflexivity.
Qed.

End SearchRefinement.

Lemma example_path_join_nonempty (root : string) (t : Demo.tree)
  (adapter : string -> list event) (a b : string) :
  path_join (Demo.host root t adapter) a b <> "".
Proof. simpl. destruct a; discriminate. Qed.

(** The bound is inclusive: a file in a directory at depth 3 is found. *)
Example detect_at_depth_3 :
  detectDatabaseType (Demo.host "/data" Demo.nested3 Demo.silent)
    "/data" Demo.fresh =
  (Ok (Some faiss),
   {| _detectedPath := Some "/data/l1/l2/l3/edge.index"; spawned := [] |}).
Proof. reflexivity. Qed.

(** A directory's own files come before its sub-directories, and [.git]
    is not entered. *)
Example detect_files_before_subdirs :
  detectDatabaseType (Demo.host "/data" Demo.files_first Demo.silent)
    "/data" Demo.fresh =
  (Ok (Some faiss),
   {| _detectedPath := Some "/data/top.index"; spawned := [] |})
  /\ faissSearchOrder (Demo.host "/data" Demo.files_first Demo.silent)
       "/data" 0 3 = ["/data/top.index"; "/data/sub/inner.faiss"].
Proof. split; reflexivity. Qed.

(** C1. For a directory without [chroma.sqlite3] and [index.faiss] directly
    inside, the search run with bound 3 returns the first file whose
    lower-cased name ends in [.faiss] or [.index], in the order: a
    directory's files, then its sub-directories other than [.], [..] and
    [.git] in listing order, depth-first, over the directories at depths 0
    to 3; detection then answers FAISS with that file as resolved path.  A
    file in a directory at depth 2 is found; a file whose directory lies at
    depth 4 gives no match. *)
Theorem nested_faiss_search :
  (forall (h : Host) (dbPath : string) (s : state),
      (forall a b, path_join h a b <> "") ->
      statSync h dbPath = Ok Directory ->
      existsSync h (path_join h dbPath "chroma.sqlite3") = false ->
      existsSync h (path_join h dbPath "index.faiss") = false ->
      searchForFaissFiles h dbPath 0 3 =
      Ok (hd_error (faissSearchOrder h dbPath 0 3))
      /\ forall first rest,
           faissSearchOrder h dbPath 0 3 = first :: rest ->
           detectDatabaseType h dbPath s =
           (Ok (Some faiss),
            {| _detectedPath := Some first; spawned := spawned s |}))
  /\ detectDatabaseType (Demo.host "/data" Demo.nested2 Demo.silent)
       "/data" Demo.fresh =
     (Ok (Some faiss),
      {| _detectedPath := Some "/data/store/shard/Vectors.FAISS";
         spawned := [] |})
  /\ detectDatabaseType (Demo.host "/data" Demo.nested4 Demo.silent)
       "/data" Demo.fresh =
     (Ok None, Demo.fresh).
Proof.
  split; [| split; reflexivity].
  intros h dbPath s Hjoin Hstat Hchroma Hindex. split.
  - apply searchForFaissFiles_first, Hjoin.
  - intros first rest Horder.
    now apply detect_first_candidate with (rest := rest).
Qed.

Lemma nested_faiss_search_witness :
  let h := Demo.host "/data" Demo.files_first Demo.silent in
  searchForFaissFiles h "/data" 0 3 = Ok (Some "/data/top.index")
  /\ detectDatabaseType h "/data" Demo.fresh =
     (Ok (Some faiss),
      {| _detectedPath := Some "/data/top.index"; spawned := [] |}).
Proof.
  intros h.
  destruct (proj1 nested_faiss_search h "/data" Demo.fresh
              (example_path_join_nonempty _ _ _) eq_refl eq_refl eq_refl)
    as [Hsearch Hdetect].
  split.
  - exact Hsearch.
  - exact (Hdetect "/data/top.index" ["/data/sub/inner.faiss"] eq_refl).
Defined.

Lemma chroma_sentinel_first_witness :
  detectDatabaseType
    (Demo.host "/data" Demo.chroma_and_faiss Demo.silent)
    "/data" Demo.fresh =
  (Ok (Some chroma), {| _detectedPath := Some "/data"; spawned := [] |}).
Proof.
  apply (chroma_sentinel_first
           (Demo.host "/data" Demo.chroma_and_faiss Demo.silent)
           "/data" Demo.fresh); reflexivity.
Defined.

Lemma missing_path_rejected_witness :
  loadVectorDB (Demo.host "/data" Demo.nested2 Demo.silent)
    "/data/absent" Demo.fresh =
  (Rejected "Path does not exist: /data/absent", Demo.fresh)
  /\ spawned
       (snd (loadVectorDB (Demo.host "/data" Demo.nested2 Demo.silent)
               "/data/absent" Demo.fresh)) = [].
Proof.
  apply (missing_path_rejected
           (Demo.host "/data" Demo.nested2 Demo.silent)
           "/data/absent" Demo.fresh).
  reflexivity.
Defined.

(** ** The listeners *)

Lemma append_assoc (a b c : string) : (a ++ b) ++ c = a ++ (b ++ c).
Proof. induction a as [| x a IH]; simpl; [reflexivity | now rewrite IH]. Qed.

Lemma append_empty_r (a : string) : a ++ "" = a.
Proof. induction a as [| x a IH]; simpl; [reflexivity | now rewrite IH]. Qed.

Section Listeners.

Variable h : Host.
Variable command : string.

Lemma settle_outputData r l : outputData (settle r l) = outputData l.
Proof. unfold settle. destruct (settled l); reflexivity. Qed.

Lemma settle_errorData r l : errorData (settle r l) = errorData l.
Proof. unfold settle. destruct (settled l); reflexivity. Qed.

Lemma settle_settled r l :
  settled (settle r l) =
  match settled l with Some r0 => Some r0 | None => Some r end.
Proof.
  unfold settle. destruct (settled l) eqn:E; simpl; rewrite ?E; reflexivity.
Qed.

Lemma dispatch_outputData l e :
  outputData (dispatch h command l e) =
  outputData l ++ stdoutText h [e].
Proof.
  destruct e; simpl; unfold onClose, onError;
    try destruct (negb (is_zero code));
    rewrite ?settle_outputData, ?append_empty_r; reflexivity.
Qed.

Lemma dispatch_errorData l e :
  errorData (dispatch h command l e) =
  errorData l ++ stderrText h [e].
Proof.
  destruct e; simpl; unfold onClose, onError;
    try destruct (negb (is_zero code));
    rewrite ?settle_errorData, ?append_empty_r; reflexivity.
Qed.

Lemma stdoutText_cons e events :
  stdoutText h (e :: events) = stdoutText h [e] ++ stdoutText h events.
Proof. destruct e; simpl; rewrite ?append_empty_r; reflexivity. Qed.

Lemma stderrText_cons e events :
  stderrText h (e :: events) = stderrText h [e] ++ stderrText h events.
Proof. destruct e; simpl; rewrite ?append_empty_r; reflexivity. Qed.

(** The parse target grows by decoded standard-output chunks only. *)
Lemma fold_outputData events :
  forall l,
    outputData (fold_left (dispatch h command) events l) =
    outputData l ++ stdoutText h events.
Proof.
  induction events as [| e events IH]; intros l; simpl fold_left.
  - now rewrite append_empty_r.
  - rewrite IH, dispatch_outputData, append_assoc, <- stdoutText_cons.
    reflexivity.
Qed.

Lemma fold_errorData events :
  forall l,
    errorData (fold_left (dispatch h command) events l) =
    errorData l ++ stderrText h events.
Proof.
  induction events as [| e events IH]; intros l; simpl fold_left.
  - now rewrite append_empty_r.
  - rewrite IH, dispatch_errorData, append_assoc, <- stderrText_cons.
    reflexivity.
Qed.

(** Output events settle nothing. *)
Lemma fold_dataOnly_settled events :
  dataOnly events = true ->
  forall l, settled (fold_left (dispatch h command) events l) = settled l.
Proof.
  induction events as [| e events IH]; intros Hdata l; simpl; [reflexivity |].
  simpl in Hdata. apply andb_prop in Hdata as [He Hrest].
  rewrite (IH Hrest). destruct e; simpl in *; try discriminate; reflexivity.
Qed.

(** A settled promise stays as it is. *)
Lemma fold_settled_stable events :
  forall l r,
    settled l = Some r ->
    settled (fold_left (dispatch h command) events l) = Some r.
Proof.
  induction events as [| e events IH]; intros l r Hl; simpl; [exact Hl |].
  apply IH.
  destruct e; simpl; unfold onClose, onError;
    try destruct (negb (is_zero code));
    rewrite ?settle_settled, ?Hl; try reflexivity; exact Hl.
Qed.

(** A trace whose first event after the output is [close]. *)
Lemma run_listeners_close before code after :
  dataOnly before = true ->
  settled (run_listeners h command (before ++ Close code :: after)) =
  Some (if negb (is_zero code) then
          Throw ("Python process exited with code " ++ code_text code ++ nl
                 ++ "Command: " ++ command ++ nl
                 ++ "Error: "
                 ++ or_else (Some (stderrText h before)) "No error output"
                 ++ nl
                 ++ "Output: "
                 ++ or_else (Some (stdoutText h before)) "No output")
        else zeroExit h (stdoutText h before)).
Proof.
  intros Hdata. unfold run_listeners.
  rewrite fold_left_app. simpl fold_left.
  apply fold_settled_stable.
  unfold onClose.
  pose proof (fold_outputData before listening) as Hout.
  pose proof (fold_errorData before listening) as Herr.
  pose proof (fold_dataOnly_settled before Hdata listening) as Hset.
  simpl in Hout, Herr, Hset.
  destruct (negb (is_zero code));
    rewrite settle_settled, Hset, ?Hout, ?Herr; reflexivity.
Qed.

End Listeners.

(** ** [loadWithPython] on a child that closes *)

Section ClosedChild.

Variable h : Host.
Variables (dbPath : string) (t : dbType) (s : state).
Variables (before after : list event) (code : option Z).

Hypothesis script_exists : existsSync h (pythonScriptPath h t) = true.
Hypothesis trace :
  spawn h (commandLine h dbPath t) (extensionPath h) =
  (before ++ Close code :: after)%list.
Hypothesis output_first : dataOnly before = true.

Lemma loadWithPython_spawns :
  snd (loadWithPython h dbPath t s) =
  {| _detectedPath := _detectedPath s;
     spawned := (spawned s ++ [commandLine h dbPath t])%list |}.
Proof.
  unfold loadWithPython, bind, log_spawn, ret.
  rewrite script_exists. reflexivity.
Qed.

Lemma loadWithPython_nonzero :
  is_zero code = false ->
  fst (loadWithPython h dbPath t s) =
  Ok (Rejected
        ("Python process exited with code " ++ code_text code ++ nl
         ++ "Command: " ++ commandLine h dbPath t ++ nl
         ++ "Error: "
         ++ or_else (Some (stderrText h before)) "No error output" ++ nl
         ++ "Output: " ++ or_else (Some (stdoutText h before)) "No output")).
Proof.
  intros Hcode. unfold loadWithPython, bind, log_spawn, ret.
  rewrite script_exists. simpl.
  rewrite trace, (run_listeners_close h _ before code after output_first).
  rewrite Hcode. reflexivity.
Qed.

Lemma loadWithPython_zero :
  is_zero code = true ->
  fst (loadWithPython h dbPath t s) =
  Ok (promise_of (Some (zeroExit h (stdoutText h before)))).
Proof.
  intros Hcode. unfold loadWithPython, bind, log_spawn, ret.
  rewrite script_exists. simpl.
  rewrite trace, (run_listeners_close h _ before code after output_first).
  rewrite Hcode. reflexivity.
Qed.

Variable doc : json.
Hypothesis parsed : JSON_parse h (stdoutText h before) = Ok doc.


Lemma zeroExit_no_error_field :
  has_property (Number_toString h) "error" doc = Ok false ->
  zeroExit h (stdoutText h before) = Ok doc.
Proof.
  intros Hfield. unfold zeroExit, parseOutput. rewrite parsed. simpl.
  rewrite Hfield. reflexivity.
Qed.

End ClosedChild.




(** An object or an array is what [in] accepts without throwing. *)
Lemma has_property_false (show : float -> string) (key : string) (doc : json) :
  has_property show key doc = Ok false <->
  (exists members, doc = JObject members /\ get_member key members = None)
  \/ (exists elements, doc = JArray elements).
Proof.
  split.
  - destruct doc as [| [|] | n | str | elements | members]; simpl;
      try discriminate.
    + intros _. right. eauto.
    + destruct (get_member key members) eqn:E; try discriminate.
      intros _. left. eauto.
  - intros [(members & -> & Hnone) | (elements & ->)]; simpl.
    + now rewrite Hnone.
    + reflexivity.
Qed.

(** C8, as amended. When the adapter exits with code 0 and its standard
    output parses as an array, or as an object without an [error] member,
    the load is fulfilled with the parsed value itself: no member is
    inspected, whatever [count], [dimension] and the vectors say. *)
Theorem output_returned_verbatim (h : Host) (dbPath : string) (t : dbType)
  (s : state) (before after : list event) (doc : json) :
  existsSync h (pythonScriptPath h t) = true ->
  spawn h (commandLine h dbPath t) (extensionPath h) =
  (before ++ Close (Some 0%Z) :: after)%list ->
  dataOnly before = true ->
  JSON_parse h (stdoutText h before) = Ok doc ->
  ((exists members, doc = JObject members /\ get_member "error" members = None)
   \/ (exists elements, doc = JArray elements)) ->
  fst (loadWithPython h dbPath t s) = Ok (Resolved doc).
Proof.
  intros Hscript Htrace Hdata Hparsed Hshape.
  apply (has_property_false (Number_toString h)) in Hshape.
  rewrite (loadWithPython_zero h dbPath t s before after (Some 0%Z)
             Hscript Htrace Hdata eq_refl).
  rewrite (zeroExit_no_error_field h before doc Hparsed Hshape).
  reflexivity.
Qed.

Lemma output_returned_verbatim_witness :
  fst (loadWithPython
         (Demo.host "/data" Demo.index_only
            (Demo.chatty Demo.mismatched_document 0))
         "/data/index.faiss" faiss Demo.fresh) =
  Ok (Resolved
        (JObject
           [("type", JString "faiss");
            ("count", JNumber 5);
            ("dimension", JNumber 3);
            ("vectors",
             JArray
               [JObject [("id", JString "a");
                         ("vector", JArray [JNumber 1; JNumber 2]);
                         ("text", JString "x");
                         ("source", JString "s")]])])).
Proof.
  refine (output_returned_verbatim
            (Demo.host "/data" Demo.index_only
               (Demo.chatty Demo.mismatched_document 0))
            "/data/index.faiss" faiss Demo.fresh
            (firstn 4 (Demo.chatty Demo.mismatched_document 0 "")) []
            _ eq_refl eq_refl eq_refl eq_refl _).
  left. eexists. split; reflexivity.
Defined.

(** C8, as stated, fails: the document [123] is valid JSON and has no
    [error] member, yet the load is rejected, because [in] throws on a
    number and the [catch] clause reports a parse failure. *)
Lemma number_document_rejected :
  let h := Demo.host "/data" Demo.index_only (Demo.chatty "123" 0) in
  let run := spawn h (commandLine h "/data/index.faiss" faiss) (extensionPath h) in
  let doc := JNumber (Demo.float_of_Z 123) in
  JSON_parse h (stdoutText h run) = Ok doc
  /\ get_property "error" doc = None
  /\ fst (loadWithPython h "/data/index.faiss" faiss Demo.fresh) =
     Ok (Rejected
           ("Failed to parse Python output: "
            ++ "Cannot use 'in' operator to search for 'error' in 123" ++ nl
            ++ "Output: 123"))
  /\ fst (loadWithPython h "/data/index.faiss" faiss Demo.fresh) <>
     Ok (Resolved doc).
Proof.
  repeat split; try reflexivity. vm_compute. discriminate.
Qed.

(** ** Standard error and the parse target *)

Section StreamSeparation.

Variable h : Host.
Variable command : string.






End StreamSeparation.

Lemma stdoutText_withChild (h : Host) child events :
  stdoutText (withChild h child) events = stdoutText h events.
Proof.
  induction events as [| e events IH]; simpl; [reflexivity |].
  destruct e; simpl; rewrite ?IH; reflexivity.
Qed.

Lemma run_listeners_withChild (h : Host) child command events :
  run_listeners (withChild h child) command events =
  run_listeners h command events.
Proof. reflexivity. Qed.





(** ** The command line seen by the shell *)

(** Inside quotes plain text is taken as it stands, up to the closing
    quote. *)
Lemma split_quoted_plain (p : string) :
  Shell.plain p = true ->
  forall w rest,
    Shell.split true (Some w) (p ++ dquote ++ rest) =
    Shell.split false (Some (w ++ p)) rest.
Proof.
  induction p as [| c p IH]; intros Hplain w rest.
  - simpl. now rewrite append_empty_r.
  - simpl in Hplain. apply andb_prop in Hplain as [Hc Hp].
    unfold Shell.plain_char in Hc. apply negb_true_iff in Hc.
    apply orb_false_iff in Hc as [Hc Hexp].
    apply orb_false_iff in Hc as [Hquote Hslash].
    change (String c p ++ dquote ++ rest)
      with (String c (p ++ dquote ++ rest)).
    cbn [Shell.split]. rewrite Hquote, Hslash, Hexp.
    cbn [Shell.add]. rewrite (IH Hp).
    rewrite append_assoc. reflexivity.
Qed.

Lemma split_bare (p : string) :
  Shell.bare p = true ->
  forall word rest,
    Shell.split false word (p ++ " " ++ rest) =
    Shell.emit (match p, word with
                | EmptyString, _ => word
                | _, Some w => Some (w ++ p)
                | _, None => Some p
                end)
               (Shell.split false None rest).
Proof.
  induction p as [| c p IH]; intros Hbare word rest.
  - reflexivity.
  - simpl in Hbare. apply andb_prop in Hbare as [Hc Hp].
    unfold Shell.bare_char, Shell.plain_char in Hc.
    apply andb_prop in Hc as [Hplain Hfree].
    apply negb_true_iff in Hplain, Hfree.
    apply orb_false_iff in Hplain as [Hplain Hexp].
    apply orb_false_iff in Hplain as [Hquote Hslash].
    apply orb_false_iff in Hfree as [Hblank Hop].
    change (String c p ++ " " ++ rest) with (String c (p ++ " " ++ rest)).
    cbn [Shell.split]. rewrite Hblank, Hquote, Hslash, Hexp, Hop.
    cbn [orb]. rewrite (IH Hp).
    destruct p, word; cbn [Shell.add]; rewrite ?append_assoc; reflexivity.
Qed.

Lemma split_quoted_word (p : string) :
  Shell.plain p = true ->
  forall rest,
    Shell.split false None (dquote ++ p ++ dquote ++ rest) =
    Shell.split false (Some p) rest.
Proof.
  intros Hplain rest.
  change (dquote ++ p ++ dquote ++ rest)
    with (String (ascii_of_nat 34) (p ++ dquote ++ rest)).
  cbn [Shell.split].
  change (Shell.is_blank (ascii_of_nat 34)) with false.
  change (Shell.is_dquote (ascii_of_nat 34)) with true.
  cbn [Shell.open_word]. now rewrite (split_quoted_plain p Hplain).
Qed.

(** A path free of double quotes, backslashes, [$] and backquotes reaches
    the adapter as one argument, spaces and all, when the interpreter is a
    bare word and the script path is as harmless. *)
Lemma commandLine_plain_path (h : Host) (dbPath : string) (t : dbType) :
  getPythonCommand h <> "" ->
  Shell.bare (getPythonCommand h) = true ->
  Shell.plain (pythonScriptPath h t) = true ->
  Shell.plain dbPath = true ->
  Shell.words (commandLine h dbPath t) =
  Shell.Words [getPythonCommand h; pythonScriptPath h t; dbPath].
Proof.
  intros Hpython Hbare Hscript Hpath.
  unfold Shell.words, commandLine.
  rewrite (split_bare _ Hbare), !append_assoc.
  rewrite (split_quoted_word _ Hscript).
  change (" " ++ dquote ++ dbPath ++ dquote)
    with (String " " (dquote ++ dbPath ++ dquote)).
  cbn [Shell.split]. change (Shell.is_blank " ") with true. cbv iota.
  replace (dquote ++ dbPath ++ dquote) with (dquote ++ dbPath ++ dquote ++ "")
    by reflexivity.
  rewrite (split_quoted_word _ Hpath). cbn [Shell.split Shell.emit].
  destruct (getPythonCommand h); [contradiction | reflexivity].
Qed.

Example commandLine_spaces :
  Shell.words
    (commandLine (Demo.host "/data" Demo.index_only Demo.silent)
       "/data/my vectors/index 1.faiss" faiss) =
  Shell.Words ["python3"; "/ext/python/faiss_adapter.py";
               "/data/my vectors/index 1.faiss"].
Proof. reflexivity. Qed.

(** C3. The resolved path is pasted between two double quotes and nothing
    in it is escaped.  Loading an index file below a directory with quote
    characters in its name spawns a command line from which the shell does
    not hand the path to the adapter: with a balanced pair the quotes are
    dropped and another path arrives; with a single one the line has no
    closing quote. *)
Theorem quote_in_path_not_escaped :
  let h := Demo.host "/data" Demo.quoted_tree Demo.silent in
  let command :=
    "python3 " ++ dquote ++ "/ext/python/faiss_adapter.py" ++ dquote ++ " "
               ++ dquote ++ Demo.quoted_dir_path ++ dquote in
  spawned (snd (loadVectorDB h Demo.quoted_dir_path Demo.fresh)) = [command]
  /\ Shell.words command =
     Shell.Words ["python3"; "/ext/python/faiss_adapter.py";
                  "/data/ab/index.faiss"]
  /\ Demo.quoted_dir_path <> "/data/ab/index.faiss"
  /\ (exists line,
        spawned (snd (loadVectorDB h Demo.one_quote_path Demo.fresh)) = [line]
        /\ Shell.words line = Shell.Unterminated).
Proof.
  repeat split; try reflexivity.
  - vm_compute. discriminate.
  - eexists. split; reflexivity.
Qed.

(** ** Reading back what the CSV writer wrote *)

Lemma quote_not_separator (c : ascii) :
  Csv.is_quote c = true -> Csv.is_comma c = false /\ Csv.is_newline c = false.
Proof.
  unfold Csv.is_quote, Csv.is_comma, Csv.is_newline. intros H.
  apply Nat.eqb_eq in H. rewrite H. split; reflexivity.
Qed.

(** Inside quotes the reader undoes the doubling, up to the closing quote. *)
Lemma scan_quoted_body (f : string) :
  forall cur row rows rest,
    Csv.scan Csv.Quoted cur row rows
      (Csv.double_quotes f ++ String (ascii_of_nat 34) rest) =
    Csv.scan Csv.Closing (cur ++ f) row rows rest.
Proof.
  induction f as [| c f IH]; intros cur row rows rest.
  - simpl. now rewrite append_empty_r.
  - cbn [Csv.double_quotes]. destruct (Csv.is_quote c) eqn:Hq.
    + destruct (quote_not_separator c Hq) as [Hcomma Hnewline].
      cbn [append Csv.scan]. rewrite Hq, Hcomma, Hnewline.
      rewrite IH, append_assoc. reflexivity.
    + cbn [append Csv.scan]. rewrite Hq.
      rewrite IH, append_assoc. reflexivity.
Qed.

(** A field without separators and quotes is read as it stands. *)
Lemma scan_bare_body (f : string) :
  Csv.needs_quotes f = false ->
  forall cur row rows rest,
    Csv.scan Csv.Bare cur row rows (f ++ rest) =
    Csv.scan Csv.Bare (cur ++ f) row rows rest.
Proof.
  induction f as [| c f IH]; intros Hbare cur row rows rest.
  - simpl. now rewrite append_empty_r.
  - cbn [Csv.needs_quotes] in Hbare.
    apply orb_false_iff in Hbare as [Hc Hf].
    apply orb_false_iff in Hc as [Hc Hq].
    apply orb_false_iff in Hc as [Hcomma Hnewline].
    cbn [append Csv.scan]. rewrite Hcomma, Hnewline, Hq.
    rewrite (IH Hf), append_assoc. reflexivity.
Qed.

(** In front of a separator, a written field leaves the reader where a
    bare field of the same content would. *)
Lemma scan_field (f : string) (d : ascii) :
  Csv.is_comma d || Csv.is_newline d = true ->
  forall row rows rest,
    Csv.scan Csv.Start "" row rows (Csv.field f ++ String d rest) =
    Csv.scan Csv.Bare f row rows (String d rest).
Proof.
  intros Hd row rows rest. unfold Csv.field.
  destruct (Csv.needs_quotes f) eqn:Hneeds.
  - rewrite !append_assoc.
    change (dquote ++ Csv.double_quotes f ++ dquote ++ String d rest)
      with (String (ascii_of_nat 34)
              (Csv.double_quotes f ++ String (ascii_of_nat 34) (String d rest))).
    cbn [Csv.scan].
    change (Csv.is_comma (ascii_of_nat 34)) with false.
    change (Csv.is_newline (ascii_of_nat 34)) with false.
    change (Csv.is_quote (ascii_of_nat 34)) with true.
    cbv iota. rewrite scan_quoted_body. cbn [append Csv.scan].
    destruct (Csv.is_comma d); [reflexivity |].
    destruct (Csv.is_newline d); [reflexivity | discriminate].
  - destruct f as [| c f].
    + cbn [append Csv.scan].
      destruct (Csv.is_comma d); [reflexivity |].
      destruct (Csv.is_newline d); [reflexivity | discriminate].
    + cbn [Csv.needs_quotes] in Hneeds.
      apply orb_false_iff in Hneeds as [Hc Hf].
      apply orb_false_iff in Hc as [Hc Hq].
      apply orb_false_iff in Hc as [Hcomma Hnewline].
      cbn [append Csv.scan]. rewrite Hcomma, Hnewline, Hq.
      now rewrite (scan_bare_body f Hf).
Qed.

Lemma scan_line (fs : list string) :
  fs <> [] ->
  forall row rows rest,
    Csv.scan Csv.Start "" row rows (Csv.line fs ++ rest) =
    Csv.scan Csv.Start "" [] (rev (rev fs ++ row) :: rows) rest.
Proof.
  induction fs as [| f fs IH]; intros Hfs row rows rest; [contradiction |].
  destruct fs as [| g fs].
  - cbn [Csv.line]. rewrite append_assoc.
    change (nl ++ rest) with (String (ascii_of_nat 10) rest).
    rewrite scan_field by reflexivity.
    reflexivity.
  - change (Csv.line (f :: g :: fs))
      with (Csv.field f ++ "," ++ Csv.line (g :: fs)).
    rewrite !append_assoc.
    change ("," ++ Csv.line (g :: fs) ++ rest)
      with (String "," (Csv.line (g :: fs) ++ rest)).
    rewrite scan_field by reflexivity.
    cbn [Csv.scan]. change (Csv.is_comma ",") with true. cbv iota.
    rewrite IH by discriminate.
    change (rev (f :: g :: fs)) with (rev (g :: fs) ++ [f])%list.
    now rewrite <- app_assoc.
Qed.

Lemma scan_lines (table : list (list string)) :
  Forall (fun row => row <> []) table ->
  forall rows,
    Csv.scan Csv.Start "" [] rows (Csv.lines table) = Some (rev rows ++ table)%list.
Proof.
  induction table as [| row table IH]; intros Hrows rows.
  - simpl. now rewrite app_nil_r.
  - inversion Hrows as [| ? ? Hrow Htable]; subst.
    cbn [Csv.lines]. rewrite (scan_line row Hrow).
    rewrite (IH Htable). rewrite app_nil_r, rev_involutive.
    simpl. now rewrite <- app_assoc.
Qed.

(** The reader is an inverse of the writer. *)
Lemma csv_read_write : reads_back Csv.read Csv.write.
Proof.
  intros records cols Hcols. unfold Csv.read, Csv.write.
  rewrite scan_lines; [reflexivity |].
  constructor; [exact Hcols |].
  apply Forall_map, Forall_forall. intros o _.
  unfold fields. destruct cols; [contradiction | discriminate].
Qed.

(** ** Export *)

Lemma csvRow_columns (d : Desk) (record : VectorRecord) :
  let row := fields columns (csvRow d record) in
  column "vector" columns row =
  Some (JSON_stringify d (JArray (map JNumber (vector record))))
  /\ column "text" columns row = Some (text record)
  /\ column "source" columns row = Some (source record).
Proof. repeat split. Qed.

(** C9. Whatever reader gives back the header and the fields that
    [stringify] was handed, gives back, from the exported file, one row per
    record of the data in order, whose [vector] column is the JSON text of
    the record's vector and whose [text] and [source] columns are the
    record's text and source. *)
Theorem csv_export_roundtrip (d : Desk)
  (reader : string -> option (list (list string)))
  (data : VectorData) (fsPath : string) (disk : list (string * string)) :
  reads_back reader (stringify d) ->
  showSaveDialog d = Some fsPath ->
  writeFileSync d fsPath (csvText d data) = Ok tt ->
  exists rows,
    exportToCSV d data disk = (Ok tt, (fsPath, csvText d data) :: disk)
    /\ reader (csvText d data) = Some (columns :: rows)
    /\ map (fun row => (column "vector" columns row,
                        column "text" columns row,
                        column "source" columns row)) rows =
       map (fun record =>
              (Some (JSON_stringify d (JArray (map JNumber (vector record)))),
               Some (text record),
               Some (source record)))
           (vectors data).
Proof.
  intros Hreader Hdialog Hwrite.
  exists (map (fields columns) (csvData d data)). repeat split.
  - unfold exportToCSV. now rewrite Hdialog, Hwrite.
  - unfold csvText. apply Hreader. discriminate.
  - unfold csvData. rewrite !map_map. apply map_ext. intros record.
    destruct (csvRow_columns d record) as (-> & -> & ->). reflexivity.
Qed.

Lemma csv_export_roundtrip_witness :
  exists rows,
    Csv.read (csvText DemoExport.desk DemoExport.sample) =
    Some (columns :: rows)
    /\ map (fun row => (column "vector" columns row,
                        column "text" columns row,
                        column "source" columns row)) rows =
       [(Some "[1,2,3]",
         Some ("said " ++ dquote ++ "hi" ++ dquote ++ ", twice" ++ nl
               ++ "and left"),
         Some "notes, v2.txt");
        (Some "[]", Some "", Some "plain")].
Proof.
  destruct (csv_export_roundtrip DemoExport.desk Csv.read DemoExport.sample
              "/home/me/vector_export.csv" [] csv_read_write eq_refl eq_refl)
    as (rows & _ & Hread & Hcolumns).
  exists rows. split; [exact Hread | exact Hcolumns].
Defined.

(** * Further properties of the loader *)

Import Reach.

(** ** Detection of a file *)

Lemma toLowerCase_idempotent (s : string) :
  toLowerCase (toLowerCase s) = toLowerCase s.
Proof.
  induction s as [| c s IH]; simpl; [reflexivity |].
  rewrite IH. f_equal.
  destruct c as [[] [] [] [] [] [] [] []]; reflexivity.
Qed.

(** ** The searches against the listings *)

Section SearchFacts.

Variable h : Host.

Lemma faissFileIn_listed (dirPath : string) (entries : list Dirent) (p : string) :
  faissFileIn h dirPath entries = Some p ->
  exists entry,
    In entry entries /\ isFaissFile entry = true
    /\ p = path_join h dirPath (name entry).
Proof.
  induction entries as [| entry rest IH]; simpl; [discriminate |].
  destruct (isFile (dirent_kind entry) && isFaissName (name entry)) eqn:E.
  - intros [= <-]. exists entry. auto.
  - intros Hrest. destruct (IH Hrest) as (e & Hin & Hfaiss & Hp).
    exists e. auto.
Qed.

(** Membership in the specified order is being listed within reach. *)
Lemma In_faissFilesWithin (levels : nat) :
  forall (dirPath p : string),
    In p (faissFilesWithin h levels dirPath) <->
    exists k, k < levels /\ FaissFileAt h dirPath k p.
Proof.
  induction levels as [| deeper IH]; intros dirPath p; simpl.
  - split; [contradiction | intros (k & Hk & _); lia].
  - destruct (readdirSync h dirPath) as [entries | err] eqn:Hread.
    + rewrite in_app_iff, in_map_iff, in_flat_map. split.
      * intros [(entry & <- & Hin) | (entry & Hin & Hdeep)].
        -- apply filter_In in Hin as [Hin Hfaiss].
           exists 0. split; [lia |].
           exists dirPath, entries, entry.
           repeat split; auto. constructor.
        -- apply filter_In in Hin as [Hin Hdir].
           apply IH in Hdeep as (k & Hk & d & es & e & Hreach & Hrest).
           exists (S k). split; [lia |].
           exists d, es, e. split; [| exact Hrest].
           now apply reached_below with (entries := entries) (entry := entry).
      * intros (k & Hk & d & es & e & Hreach & Hes & Hin & Hfaiss & ->).
        inversion Hreach as [| ? entries' entry ? ? Hread' Hin' Hdir Hbelow];
          subst.
        -- left. exists e. split; [reflexivity |].
           rewrite Hread in Hes. injection Hes as <-.
           apply filter_In. auto.
        -- right. rewrite Hread in Hread'. injection Hread' as <-.
           exists entry. split; [apply filter_In; auto |].
           apply IH. exists k0. split; [lia |].
           exists d, es, e. auto.
    + split; [contradiction |].
      intros (k & Hk & d & es & e & Hreach & Hes & _).
      inversion Hreach; subst; congruence.
Qed.

Lemma In_chromaDirsWithin (levels : nat) :
  forall (dirPath q : string),
    In q (chromaDirsWithin h levels dirPath) <->
    exists k, k < levels /\ ChromaDirAt h dirPath k q.
Proof.
  induction levels as [| deeper IH]; intros dirPath q; simpl.
  - split; [contradiction | intros (k & Hk & _); lia].
  - destruct (readdirSync h dirPath) as [entries | err] eqn:Hread.
    + rewrite in_app_iff, in_flat_map. split.
      * intros [Hhere | (entry & Hin & Hdeep)].
        -- destruct (chromaFileIn entries) eqn:Hsentinel; [| contradiction].
           destruct Hhere as [<- | []].
           exists 0. split; [lia |].
           exists entries. repeat split; auto. constructor.
        -- apply filter_In in Hin as [Hin Hdir].
           apply IH in Hdeep as (k & Hk & es & Hreach & Hrest).
           exists (S k). split; [lia |].
           exists es. split; [| exact Hrest].
           now apply reached_below with (entries := entries) (entry := entry).
      * intros (k & Hk & es & Hreach & Hes & Hsentinel).
        inversion Hreach as [| ? entries' entry ? ? Hread' Hin' Hdir Hbelow];
          subst.
        -- left. rewrite Hread in Hes. injection Hes as <-.
           rewrite Hsentinel. now left.
        -- right. rewrite Hread in Hread'. injection Hread' as <-.
           exists entry. split; [apply filter_In; auto |].
           apply IH. exists k0. split; [lia |].
           exists es. auto.
    + split; [contradiction |].
      intros (k & Hk & es & Hreach & Hes & _).
      inversion Hreach; subst; congruence.
Qed.

Hypothesis path_join_nonempty : forall a b, path_join h a b <> "".

Lemma chromaDirsWithin_nonempty (levels : nat) :
  forall dirPath,
    dirPath <> "" ->
    Forall (fun q => q <> "") (chromaDirsWithin h levels dirPath).
Proof.
  induction levels as [| deeper IH]; intros dirPath Hdir; simpl.
  - constructor.
  - destruct (readdirSync h dirPath) as [entries | e]; [| constructor].
    apply Forall_app; split.
    + destruct (chromaFileIn entries); repeat constructor. exact Hdir.
    + apply Forall_flat_map, Forall_forall. intros entry _.
      apply IH, path_join_nonempty.
Qed.

(** The loop over sub-directories, for candidates known to be non-empty
    on joined paths only. *)
Lemma searchSubdirs_head (recur : string -> result (option string))
  (candidates : string -> list string) (dirPath : string) :
  (forall entry,
      recur (path_join h dirPath (name entry)) =
      Ok (hd_error (candidates (path_join h dirPath (name entry))))) ->
  (forall entry,
      Forall (fun x => x <> "")
             (candidates (path_join h dirPath (name entry)))) ->
  forall entries,
    searchSubdirs h recur dirPath entries =
    Ok (hd_error
          (flat_map (fun entry => candidates (path_join h dirPath (name entry)))
                    (filter isSearchedDir entries))).
Proof.
  intros Hrecur Hnonempty entries.
  induction entries as [| entry rest IH]; simpl; [reflexivity |].
  destruct (isSearchedDir entry); simpl; [| exact IH].
  rewrite Hrecur. simpl.
  rewrite (truthy_hd_error _ (Hnonempty entry)).
  destruct (candidates (path_join h dirPath (name entry))) as [| p more];
    simpl; [exact IH | reflexivity].
Qed.

Lemma searchChromaLevels_first (levels : nat) :
  forall dirPath,
    searchChromaLevels h levels dirPath =
    Ok (hd_error (chromaDirsWithin h levels dirPath)).
Proof.
  induction levels as [| deeper IH]; intros dirPath; simpl; [reflexivity |].
  destruct (readdirSync h dirPath) as [entries | e]; simpl; [| reflexivity].
  destruct (chromaFileIn entries); simpl; [reflexivity |].
  rewrite (searchSubdirs_head _ (chromaDirsWithin h deeper) dirPath).
  - reflexivity.
  - intros entry. apply IH.
  - intros entry. apply chromaDirsWithin_nonempty, path_join_nonempty.
Qed.

Lemma hd_error_None {A} (l : list A) : hd_error l = None <-> l = [].
Proof. destruct l; simpl; split; congruence. Qed.

Lemma hd_error_In {A} (l : list A) (x : A) : hd_error l = Some x -> In x l.
Proof. destruct l; simpl; [discriminate | intros [= ->]; now left]. Qed.

Lemma faiss_search_sound_complete (root : string) (levels : nat) :
  (forall p,
      searchFaissLevels h levels root = Ok (Some p) ->
      exists k, k < levels /\ FaissFileAt h root k p)
  /\ (searchFaissLevels h levels root = Ok None <->
      forall k p, k < levels -> ~ FaissFileAt h root k p).
Proof.
  rewrite (searchFaissLevels_first h path_join_nonempty). split.
  - intros p [= Hhead]. apply In_faissFilesWithin. now apply hd_error_In.
  - split.
    + intros [= Hhead]. apply hd_error_None in Hhead.
      intros k p Hk Hat.
      assert (Hin : In p (faissFilesWithin h levels root))
        by (apply In_faissFilesWithin; eauto).
      now rewrite Hhead in Hin.
    + intros Hnone. f_equal. apply hd_error_None.
      destruct (faissFilesWithin h levels root) as [| p rest] eqn:E;
        [reflexivity |].
      assert (Hin : In p (faissFilesWithin h levels root))
        by (rewrite E; now left).
      apply In_faissFilesWithin in Hin as (k & Hk & Hat).
      now destruct (Hnone k p Hk).
Qed.

Lemma chroma_search_sound_complete (root : string) (levels : nat) :
  (forall q,
      searchChromaLevels h levels root = Ok (Some q) ->
      exists k, k < levels /\ ChromaDirAt h root k q)
  /\ (searchChromaLevels h levels root = Ok None <->
      forall k q, k < levels -> ~ ChromaDirAt h root k q).
Proof.
  rewrite searchChromaLevels_first. split.
  - intros q [= Hhead]. apply In_chromaDirsWithin. now apply hd_error_In.
  - split.
    + intros [= Hhead]. apply hd_error_None in Hhead.
      intros k q Hk Hat.
      assert (Hin : In q (chromaDirsWithin h levels root))
        by (apply In_chromaDirsWithin; eauto).
      now rewrite Hhead in Hin.
    + intros Hnone. f_equal. apply hd_error_None.
      destruct (chromaDirsWithin h levels root) as [| q rest] eqn:E;
        [reflexivity |].
      assert (Hin : In q (chromaDirsWithin h levels root))
        by (rewrite E; now left).
      apply In_chromaDirsWithin in Hin as (k & Hk & Hat).
      now destruct (Hnone k q Hk).
Qed.

End SearchFacts.

(** Detection computes the classification. *)
Lemma detection_follows_steps_aux (h : Host) (dbPath : string) (s : state) :
  (forall a b, path_join h a b <> "") ->
  dbPath <> "" ->
  detectDatabaseType h dbPath s =
  match classify h dbPath with
  | Some (t, resolved) =>
      (Ok (Some t), {| _detectedPath := Some resolved; spawned := spawned s |})
  | None => (Ok None, s)
  end.
Proof.
  intros Hjoin Hpath. unfold classify, detectDatabaseType, try_catch, bind, lift.
  destruct (statSync h dbPath) as [[| |] | e]; simpl; try reflexivity.
  - unfold isFaissName. destruct (endsWith _ _ || endsWith _ _); reflexivity.
  - unfold classifyDirectory.
    destruct (existsSync h (path_join h dbPath "chroma.sqlite3"));
      [reflexivity |].
    destruct (existsSync h (path_join h dbPath "index.faiss"));
      [reflexivity |].
    rewrite (searchForFaissFiles_first h Hjoin).
    assert (Hfaiss : Forall (fun p => p <> "") (faissSearchOrder h dbPath 0 3))
      by apply (faissFilesWithin_nonempty h Hjoin).
    unfold searchForChromaDB. rewrite (searchChromaLevels_first h Hjoin).
    assert (Hchroma : Forall (fun q => q <> "") (chromaSearchOrder h dbPath 0 3))
      by apply (chromaDirsWithin_nonempty h Hjoin _ _ Hpath).
    fold (chromaSearchOrder h dbPath 0 3).
    cbn [rbind].
    rewrite (truthy_hd_error _ Hfaiss).
    destruct (faissSearchOrder h dbPath 0 3) as [| p rest]; [| reflexivity].
    cbn [rbind]. rewrite (truthy_hd_error _ Hchroma).
    destruct (chromaSearchOrder h dbPath 0 3) as [| q more]; reflexivity.
Qed.


(** X1. Detection is the classification of the specification, step by
    step: a file by its lower-cased name; a directory by the sentinel
    directly inside, else the default index directly inside, else the first
    nested FAISS file, else the first nested Chroma directory; anything
    else is no match.  The path of the match is stored; on no match the
    state is left alone. *)
Theorem detection_follows_steps (h : Host) (dbPath : string) (s : state) :
  (forall a b, path_join h a b <> "") ->
  dbPath <> "" ->
  detectDatabaseType h dbPath s =
  match classify h dbPath with
  | Some (t, resolved) =>
      (Ok (Some t), {| _detectedPath := Some resolved; spawned := spawned s |})
  | None => (Ok None, s)
  end.
Proof. apply detection_follows_steps_aux. Qed.

Lemma detection_follows_steps_witness :
  let nested_chroma :=
    Demo.dir [("runs", Demo.dir [("db", Demo.dir [("chroma.sqlite3", Demo.file)])]);
              ("notes.txt", Demo.file)] in
  detectDatabaseType (Demo.host "/data" nested_chroma Demo.silent)
    "/data" Demo.fresh =
  (Ok (Some chroma),
   {| _detectedPath := Some "/data/runs/db"; spawned := [] |}).
Proof.
  intros nested_chroma.
  exact (detection_follows_steps
           (Demo.host "/data" nested_chroma Demo.silent) "/data" Demo.fresh
           (example_path_join_nonempty _ _ _) ltac:(discriminate)).
Defined.

(** X2. [searchForFaissFiles] returns only what the listings show: a file
    entry with a FAISS name, in a directory reached from the start through
    entered sub-directories, at a depth within the bound.  And it misses
    nothing: it returns [null] exactly when no such entry exists. *)
Theorem faiss_search_exact (h : Host) (root : string)
  (currentDepth maxDepth : nat) :
  (forall a b, path_join h a b <> "") ->
  (forall p,
      searchForFaissFiles h root currentDepth maxDepth = Ok (Some p) ->
      exists k, currentDepth + k <= maxDepth /\ FaissFileAt h root k p)
  /\ (searchForFaissFiles h root currentDepth maxDepth = Ok None <->
      forall k p, currentDepth + k <= maxDepth -> ~ FaissFileAt h root k p).
Proof.
  intros Hjoin. unfold searchForFaissFiles.
  destruct (faiss_search_sound_complete h Hjoin root
              (S maxDepth - currentDepth)) as [Hsound Hcomplete].
  split.
  - intros p Hfound. destruct (Hsound p Hfound) as (k & Hk & Hat).
    exists k. split; [lia | exact Hat].
  - rewrite Hcomplete. split; intros Hnone k p Hk; apply Hnone; lia.
Qed.

Lemma faiss_search_exact_witness :
  exists k,
    0 + k <= 3
    /\ FaissFileAt (Demo.host "/data" Demo.nested2 Demo.silent) "/data" k
         "/data/store/shard/Vectors.FAISS".
Proof.
  exact (proj1 (faiss_search_exact
                  (Demo.host "/data" Demo.nested2 Demo.silent) "/data" 0 3
                  (example_path_join_nonempty _ _ _))
           "/data/store/shard/Vectors.FAISS" eq_refl).
Defined.

(** X3. [searchForChromaDB] returns only a directory, reached from the
    start through entered sub-directories at a depth within the bound,
    whose listing holds a file named [chroma.sqlite3]; it returns [null]
    exactly when there is no such directory. *)
Theorem chroma_search_exact (h : Host) (root : string)
  (currentDepth maxDepth : nat) :
  (forall a b, path_join h a b <> "") ->
  (forall q,
      searchForChromaDB h root currentDepth maxDepth = Ok (Some q) ->
      exists k, currentDepth + k <= maxDepth /\ ChromaDirAt h root k q)
  /\ (searchForChromaDB h root currentDepth maxDepth = Ok None <->
      forall k q, currentDepth + k <= maxDepth -> ~ ChromaDirAt h root k q).
Proof.
  intros Hjoin. unfold searchForChromaDB.
  destruct (chroma_search_sound_complete h Hjoin root
              (S maxDepth - currentDepth)) as [Hsound Hcomplete].
  split.
  - intros q Hfound. destruct (Hsound q Hfound) as (k & Hk & Hat).
    exists k. split; [lia | exact Hat].
  - rewrite Hcomplete. split; intros Hnone k q Hk; apply Hnone; lia.
Qed.

Lemma chroma_search_exact_witness :
  let nested_chroma :=
    Demo.dir [("runs", Demo.dir [("db", Demo.dir [("chroma.sqlite3", Demo.file)])])] in
  exists k,
    0 + k <= 3
    /\ ChromaDirAt (Demo.host "/data" nested_chroma Demo.silent) "/data" k
         "/data/runs/db".
Proof.
  intros nested_chroma.
  exact (proj1 (chroma_search_exact
                  (Demo.host "/data" nested_chroma Demo.silent) "/data" 0 3
                  (example_path_join_nonempty _ _ _))
           "/data/runs/db" eq_refl).
Defined.

(** X4. Raising the depth bound never loses a database: when a search
    bounded by [maxDepth] finds something, so does the same search under any
    larger bound. *)
Theorem deeper_search_still_finds (h : Host) (root : string)
  (currentDepth maxDepth deeper : nat) :
  (forall a b, path_join h a b <> "") ->
  maxDepth <= deeper ->
  (forall p,
      searchForFaissFiles h root currentDepth maxDepth = Ok (Some p) ->
      exists p', searchForFaissFiles h root currentDepth deeper = Ok (Some p'))
  /\ (forall q,
         searchForChromaDB h root currentDepth maxDepth = Ok (Some q) ->
         exists q', searchForChromaDB h root currentDepth deeper = Ok (Some q')).
Proof.
  intros Hjoin Hle. split.
  - intros p Hfound.
    destruct (faiss_search_sound_complete h Hjoin root
                (S maxDepth - currentDepth)) as [Hsound _].
    destruct (Hsound p Hfound) as (k & Hk & Hat).
    destruct (faiss_search_sound_complete h Hjoin root
                (S deeper - currentDepth)) as [_ Hcomplete].
    unfold searchForFaissFiles.
    destruct (searchFaissLevels_returns h (S deeper - currentDepth) root)
      as ([p' |] & Hresult); [eauto |].
    exfalso. apply (proj1 Hcomplete Hresult k p); [lia | exact Hat].
  - intros q Hfound.
    destruct (chroma_search_sound_complete h Hjoin root
                (S maxDepth - currentDepth)) as [Hsound _].
    destruct (Hsound q Hfound) as (k & Hk & Hat).
    destruct (chroma_search_sound_complete h Hjoin root
                (S deeper - currentDepth)) as [_ Hcomplete].
    unfold searchForChromaDB.
    destruct (searchChromaLevels_returns h (S deeper - currentDepth) root)
      as ([q' |] & Hresult); [eauto |].
    exfalso. apply (proj1 Hcomplete Hresult k q); [lia | exact Hat].
Qed.

Lemma deeper_search_still_finds_witness :
  exists p',
    searchForFaissFiles (Demo.host "/data" Demo.nested2 Demo.silent)
      "/data" 0 5 = Ok (Some p').
Proof.
  exact (proj1 (deeper_search_still_finds
                  (Demo.host "/data" Demo.nested2 Demo.silent) "/data" 0 3 5
                  (example_path_join_nonempty _ _ _) ltac:(lia))
           "/data/store/shard/Vectors.FAISS" eq_refl).
Defined.

(** ** From detection to the adapter *)

Lemma or_else_stored (q fallback : string) :
  q <> "" -> or_else (Some q) fallback = q.
Proof.
  intros Hq. simpl. destruct (String.eqb_spec q "") as [E | _];
    [contradiction | reflexivity].
Qed.

Lemma classify_nonempty (h : Host) (dbPath : string) (t : dbType) (q : string) :
  (forall a b, path_join h a b <> "") ->
  dbPath <> "" ->
  classify h dbPath = Some (t, q) ->
  q <> "".
Proof.
  intros Hjoin Hpath. unfold classify, classifyDirectory.
  destruct (statSync h dbPath) as [[| |] | e]; try discriminate.
  - destruct (isFaissName dbPath); [intros [= _ <-]; exact Hpath | discriminate].
  - destruct (existsSync h _); [intros [= _ <-]; exact Hpath |].
    destruct (existsSync h _); [intros [= _ <-]; apply Hjoin |].
    pose proof (faissFilesWithin_nonempty h Hjoin 4 dbPath) as Hfaiss.
    pose proof (chromaDirsWithin_nonempty h Hjoin 4 dbPath Hpath) as Hchroma.
    unfold faissSearchOrder, chromaSearchOrder. simpl minus.
    destruct (faissFilesWithin h 4 dbPath) as [| p rest].
    + destruct (chromaDirsWithin h 4 dbPath) as [| q' more]; [discriminate |].
      intros [= _ <-]. now inversion Hchroma.
    + intros [= _ <-]. now inversion Hfaiss.
Qed.

(** X5. A load hands the adapter the path that the classification
    resolved, not the input: for an existing input classified as [(t, q)],
    the one command spawned is the command line for [q] and the adapter of
    type [t], the promise is what the listeners make of that child, and [q]
    stays stored.  If the adapter script is missing, or the input is not
    classified, the load is rejected and nothing is spawned. *)
Theorem load_runs_adapter_on_resolved_path (h : Host) (dbPath : string)
  (s : state) :
  (forall a b, path_join h a b <> "") ->
  dbPath <> "" ->
  existsSync h dbPath = true ->
  match classify h dbPath with
  | Some (t, q) =>
      if existsSync h (pythonScriptPath h t) then
        loadVectorDB h dbPath s =
        (promise_of
           (settled (run_listeners h (commandLine h q t)
                       (spawn h (commandLine h q t) (extensionPath h)))),
         {| _detectedPath := Some q;
            spawned := (spawned s ++ [commandLine h q t])%list |})
      else
        loadVectorDB h dbPath s =
        (Rejected ("Python adapter not found: " ++ pythonScriptPath h t),
         {| _detectedPath := Some q; spawned := spawned s |})
  | None =>
      exists message,
        loadVectorDB h dbPath s =
        (Rejected message, {| _detectedPath := None; spawned := spawned s |})
  end.
Proof.
  intros Hjoin Hpath Hexists.
  assert (Hload : forall verdict stored,
             (forall s0,
                 detectDatabaseType h dbPath s0 =
                 (Ok verdict,
                  {| _detectedPath := stored s0; spawned := spawned s0 |})) ->
             loadVectorDB h dbPath s =
             (let s' := {| _detectedPath := stored
                             {| _detectedPath := None; spawned := spawned s |};
                           spawned := spawned s |} in
              match
                match verdict with
                | None => undetected h dbPath
                | Some t =>
                    bind get_detectedPath (fun found =>
                      loadWithPython h (or_else found dbPath) t)
                end s'
              with
              | (Ok p, s'') => (p, s'')
              | (Throw e, s'') => (Rejected e, s'')
              end)).
  { intros verdict stored Hdetect.
    unfold loadVectorDB, loadVectorDB_body. rewrite Hexists. simpl.
    unfold bind at 1. unfold set_detectedPath at 1. unfold bind at 1.
    rewrite Hdetect. reflexivity. }
  pose proof (fun s0 => detection_follows_steps_aux h dbPath s0 Hjoin Hpath)
    as Hdetect.
  destruct (classify h dbPath) as [[t q] |] eqn:Hclass.
  - pose proof (classify_nonempty h dbPath t q Hjoin Hpath Hclass) as Hq.
    destruct (existsSync h (pythonScriptPath h t)) eqn:Hscript;
      rewrite (Hload (Some t) (fun _ => Some q) Hdetect);
      unfold bind, get_detectedPath, loadWithPython, bind, log_spawn, ret;
      cbn [_detectedPath spawned]; rewrite (or_else_stored q dbPath Hq);
      rewrite Hscript; reflexivity.
  - assert (Hdetect' : forall s0,
               detectDatabaseType h dbPath s0 =
               (Ok None,
                {| _detectedPath := _detectedPath s0; spawned := spawned s0 |}))
      by (intros [d c]; apply Hdetect).
    rewrite (Hload None (fun s0 => _detectedPath s0) Hdetect').
    cbn [_detectedPath spawned].
    unfold undetected, bind, lift, throw.
    destruct (statSync h dbPath) as [k | e]; [| eauto].
    destruct (isFile k); [eauto |].
    destruct (isDirectory k); [| eauto].
    destruct (readdirSync h dbPath); eauto.
Qed.

Lemma load_runs_adapter_on_resolved_path_witness :
  let h := Demo.host "/data" Demo.nested2
             (Demo.chatty Demo.mismatched_document 0) in
  let command :=
    "python3 " ++ Demo.key "/ext/python/faiss_adapter.py" ++ " "
               ++ Demo.key "/data/store/shard/Vectors.FAISS" in
  loadVectorDB h "/data" Demo.fresh =
  (promise_of (settled (run_listeners h command (spawn h command "/ext"))),
   {| _detectedPath := Some "/data/store/shard/Vectors.FAISS";
      spawned := [command] |}).
Proof.
  intros h command.
  exact (load_runs_adapter_on_resolved_path h "/data" Demo.fresh
           (example_path_join_nonempty _ _ _) ltac:(discriminate) eq_refl).
Defined.

(** X6. One load, at most one child: a call of [loadVectorDB] appends at
    most one command to those spawned and removes none; and a call that
    spawns nothing is rejected, so no result is ever returned without
    running an adapter. *)
Theorem load_spawns_at_most_once (h : Host) (dbPath : string) (s : state) :
  exists commands,
    spawned (snd (loadVectorDB h dbPath s)) = (spawned s ++ commands)%list
    /\ List.length commands <= 1
    /\ (commands = [] ->
        exists message, fst (loadVectorDB h dbPath s) = Rejected message).
Proof.
  assert (Hcases :
            exists outcome s' commands,
              loadVectorDB h dbPath s = (outcome, s')
              /\ spawned s' = (spawned s ++ commands)%list
              /\ List.length commands <= 1
              /\ (commands = [] -> exists message, outcome = Rejected message)).
  { destruct (existsSync h dbPath) eqn:Hexists.
    2: { rewrite (loadVectorDB_missing h dbPath s Hexists).
         exists (Rejected ("Path does not exist: " ++ dbPath)), s, [].
         rewrite app_nil_r. repeat split; [simpl; lia | eauto]. }
    destruct (detectDatabaseType_state h dbPath) as (verdict & write & Hdetect).
    unfold loadVectorDB, loadVectorDB_body. rewrite Hexists. simpl.
    unfold bind at 1. unfold set_detectedPath at 1. unfold bind at 1.
    rewrite Hdetect. cbn [_detectedPath spawned].
    destruct verdict as [t |].
    - unfold bind, get_detectedPath, loadWithPython, bind, log_spawn, ret.
      cbn [_detectedPath spawned].
      destruct (negb (existsSync h (pythonScriptPath h t))).
      + eexists _, _, []. split; [reflexivity |]. simpl.
        rewrite app_nil_r. repeat split; [lia | eauto].
      + eexists _, _, [_]. split; [reflexivity |]. simpl.
        repeat split; [lia | discriminate].
    - unfold undetected, bind, lift, throw.
      destruct (statSync h dbPath) as [k | e];
        [destruct (isFile k);
         [| destruct (isDirectory k);
            [destruct (readdirSync h dbPath) |]] |];
        (eexists _, _, []; split; [reflexivity |]; simpl;
         rewrite app_nil_r; repeat split; [lia | eauto]). }
  destruct Hcases as (outcome & s' & commands & -> & Hspawned & Hone & Hnone).
  exists commands. simpl. auto.
Qed.

Lemma load_spawns_at_most_once_witness :
  let h := Demo.host "/data" Demo.nested2 Demo.silent in
  exists message,
    fst (loadVectorDB h "/data/README.md" Demo.fresh) = Rejected message
    /\ spawned (snd (loadVectorDB h "/data/README.md" Demo.fresh)) = [].
Proof.
  intros h.
  destruct (load_spawns_at_most_once h "/data/README.md" Demo.fresh)
    as (commands & Hspawned & _ & Hnone).
  assert (Hcommands : commands = []).
  { change (spawned (snd (loadVectorDB h "/data/README.md" Demo.fresh)))
      with (@nil string) in Hspawned.
    destruct commands; [reflexivity | discriminate]. }
  destruct (Hnone Hcommands) as [message Hmessage].
  exists message. split; [exact Hmessage | reflexivity].
Defined.

(** ** The outcome of a child *)

Lemma substring_all (n : nat) :
  forall s : string, String.length s <= n -> substring 0 n s = s.
Proof.
  induction n as [| n IH]; intros [| c s] Hlen; simpl in *;
    try reflexivity; try lia.
  rewrite IH by lia. reflexivity.
Qed.

Lemma substring_length_le (n : nat) :
  forall s : string, String.length (substring 0 n s) <= n.
Proof.
  induction n as [| n IH]; intros [| c s]; simpl; try lia.
  specialize (IH s). lia.
Qed.

Lemma append_length (a b : string) :
  String.length (a ++ b) = String.length a + String.length b.
Proof. induction a as [| c a IH]; simpl; [reflexivity | now rewrite IH]. Qed.

(** X7. When the adapter exits with code 0 and [JSON.parse] throws on its
    output, the load is rejected with the parser's message and a preview of
    the output: the whole output when it has at most 500 characters, else
    its first 500 characters followed by three dots, so never more than
    503 characters. *)
Theorem parse_failure_preview (h : Host) (dbPath : string) (t : dbType)
  (s : state) (before after : list event) (message : string) :
  existsSync h (pythonScriptPath h t) = true ->
  spawn h (commandLine h dbPath t) (extensionPath h) =
  (before ++ Close (Some 0%Z) :: after)%list ->
  dataOnly before = true ->
  JSON_parse h (stdoutText h before) = Throw message ->
  exists preview,
    fst (loadWithPython h dbPath t s) =
    Ok (Rejected ("Failed to parse Python output: " ++ message ++ nl
                  ++ "Output: " ++ preview))
    /\ String.length preview <= 503
    /\ (String.length (stdoutText h before) <= 500 ->
        preview = stdoutText h before)
    /\ (500 < String.length (stdoutText h before) ->
        preview = substring 0 500 (stdoutText h before) ++ "...").
Proof.
  intros Hscript Htrace Hdata Hparse.
  rewrite (loadWithPython_zero h dbPath t s before after (Some 0%Z)
             Hscript Htrace Hdata eq_refl).
  unfold zeroExit, parseOutput. rewrite Hparse. simpl.
  set (output := stdoutText h before).
  exists (substring 0 500 output
          ++ (if (500 <? String.length output)%nat then "..." else "")).
  pose proof (substring_length_le 500 output) as Hbound.
  destruct (Nat.ltb_spec 500 (String.length output)) as [Hlong | Hshort].
  - split; [reflexivity |].
    split; [rewrite append_length; simpl; lia |].
    split; [lia | reflexivity].
  - split; [reflexivity |].
    split; [rewrite append_length; simpl; lia |].
    split; [| lia].
    intros _. now rewrite append_empty_r, substring_all.
Qed.

Lemma parse_failure_preview_witness :
  fst (loadWithPython
         (Demo.host "/data" Demo.index_only (Demo.chatty "Traceback: boom" 0))
         "/data/index.faiss" faiss Demo.fresh) =
  Ok (Rejected ("Failed to parse Python output: Unexpected token in JSON" ++ nl
                ++ "Output: Traceback: boom")).
Proof.
  destruct (parse_failure_preview
              (Demo.host "/data" Demo.index_only (Demo.chatty "Traceback: boom" 0))
              "/data/index.faiss" faiss Demo.fresh
              (firstn 4 (Demo.chatty "Traceback: boom" 0 "")) []
              "Unexpected token in JSON" eq_refl eq_refl eq_refl eq_refl)
    as (preview & Hload & _ & Hshort & _).
  rewrite Hload, (Hshort ltac:(vm_compute; lia)). reflexivity.
Defined.

Lemma run_listeners_error (h : Host) (command : string)
  (before after : list event) (message : string) :
  dataOnly before = true ->
  settled (run_listeners h command (before ++ ProcessError message :: after)) =
  Some (Throw ("Failed to start Python process: " ++ message ++ nl
               ++ "Command: " ++ getPythonCommand h ++ nl
               ++ "Make sure Python is installed and in your PATH, "
               ++ "or configure vectorExplorer.pythonPath in settings.")).
Proof.
  intros Hdata. unfold run_listeners.
  rewrite fold_left_app. simpl fold_left.
  apply fold_settled_stable.
  unfold onError. rewrite settle_settled.
  now rewrite (fold_dataOnly_settled h command before Hdata listening).
Qed.

(** X8. When the child reports an [error] before any [close], the load is
    rejected with the start-failure message, which names the error and the
    interpreter; a [close] that follows, whatever its code, changes
    nothing. *)
Theorem spawn_error_rejected (h : Host) (dbPath : string) (t : dbType)
  (s : state) (before after : list event) (message : string) :
  existsSync h (pythonScriptPath h t) = true ->
  spawn h (commandLine h dbPath t) (extensionPath h) =
  (before ++ ProcessError message :: after)%list ->
  dataOnly before = true ->
  fst (loadWithPython h dbPath t s) =
  Ok (Rejected
        ("Failed to start Python process: " ++ message ++ nl
         ++ "Command: " ++ getPythonCommand h ++ nl
         ++ "Make sure Python is installed and in your PATH, "
         ++ "or configure vectorExplorer.pythonPath in settings.")).
Proof.
  intros Hscript Htrace Hdata.
  unfold loadWithPython, bind, log_spawn, ret. rewrite Hscript. simpl.
  rewrite Htrace, (run_listeners_error h _ before after message Hdata).
  reflexivity.
Qed.

Lemma spawn_error_rejected_witness :
  fst (loadWithPython
         (Demo.host "/data" Demo.index_only
            (fun _ => [ProcessError "spawn /bin/sh ENOENT"; Close (Some (-2)%Z)]))
         "/data/index.faiss" faiss Demo.fresh) =
  Ok (Rejected
        ("Failed to start Python process: spawn /bin/sh ENOENT" ++ nl
         ++ "Command: python3" ++ nl
         ++ "Make sure Python is installed and in your PATH, "
         ++ "or configure vectorExplorer.pythonPath in settings.")).
Proof.
  exact (spawn_error_rejected
           (Demo.host "/data" Demo.index_only
              (fun _ => [ProcessError "spawn /bin/sh ENOENT";
                         Close (Some (-2)%Z)]))
           "/data/index.faiss" faiss Demo.fresh [] [Close (Some (-2)%Z)]
           "spawn /bin/sh ENOENT" eq_refl eq_refl eq_refl).
Defined.

(** X9. A promise is settled once: as soon as the events so far have
    settled it, no event that follows changes the outcome, and
    [loadWithPython] gives the same result on the longer trace. *)
Theorem settled_once (h : Host) (command : string)
  (events later : list event) (r : result json) :
  settled (run_listeners h command events) = Some r ->
  settled (run_listeners h command (events ++ later)) = Some r
  /\ forall (dbPath : string) (t : dbType) (s : state),
       command = commandLine h dbPath t ->
       loadWithPython (withChild h (fun _ _ => (events ++ later)%list))
         dbPath t s =
       loadWithPython (withChild h (fun _ _ => events)) dbPath t s.
Proof.
  intros Hsettled.
  assert (Hlonger :
            settled (run_listeners h command (events ++ later)) = Some r).
  { unfold run_listeners. rewrite fold_left_app.
    now apply fold_settled_stable. }
  split; [exact Hlonger |].
  intros dbPath t s ->.
  unfold loadWithPython, bind, log_spawn, ret. simpl.
  destruct (negb (existsSync h _)); [reflexivity |].
  rewrite !run_listeners_withChild.
  change (commandLine (withChild h (fun _ _ => (events ++ later)%list)) dbPath t)
    with (commandLine h dbPath t).
  change (commandLine (withChild h (fun _ _ => events)) dbPath t)
    with (commandLine h dbPath t).
  now rewrite Hlonger, Hsettled.
Qed.

Lemma settled_once_witness :
  let h := Demo.host "/data" Demo.index_only Demo.silent in
  let command := commandLine h "/data/index.faiss" faiss in
  settled (run_listeners h command
             (Demo.chatty Demo.error_document 0 ""
              ++ [StdoutData (Demo.bytes "late"); Close (Some 1%Z)])) =
  Some (Throw "Python adapter error: no module named X").
Proof.
  intros h command.
  exact (proj1 (settled_once h command (Demo.chatty Demo.error_document 0 "")
                  [StdoutData (Demo.bytes "late"); Close (Some 1%Z)]
                  (Throw "Python adapter error: no module named X") eq_refl)).
Defined.

Lemma unsettled_dataOnly (h : Host) (command : string) (events : list event) :
  forall l,
    settled l = None ->
    settled (fold_left (dispatch h command) events l) = None ->
    dataOnly events = true.
Proof.
  induction events as [| e events IH]; intros l Hl Hend; [reflexivity |].
  cbn [fold_left] in Hend.
  destruct e as [data | data | code | message]; simpl.
  - apply (IH (dispatch h command l (StdoutData data)) Hl Hend).
  - apply (IH (dispatch h command l (StderrData data)) Hl Hend).
  - exfalso.
    assert (Hset : exists r, settled (onClose h command code l) = Some r).
    { unfold onClose. destruct (negb (is_zero code));
        rewrite settle_settled, Hl; eauto. }
    destruct Hset as [r Hr].
    change (dispatch h command l (Close code))
      with (onClose h command code l) in Hend.
    rewrite (fold_settled_stable h command events _ r Hr) in Hend.
    discriminate.
  - exfalso.
    assert (Hr : exists r, settled (onError h message l) = Some r).
    { unfold onError. rewrite settle_settled, Hl. eauto. }
    destruct Hr as [r Hr].
    change (dispatch h command l (ProcessError message))
      with (onError h message l) in Hend.
    rewrite (fold_settled_stable h command events _ r Hr) in Hend.
    discriminate.
Qed.

(** X10. There is no timeout: the promise of [loadWithPython] stays
    pending exactly when the child emits neither [close] nor [error],
    whatever and however much it writes. *)
Theorem pending_without_close (h : Host) (dbPath : string) (t : dbType)
  (s : state) :
  existsSync h (pythonScriptPath h t) = true ->
  (fst (loadWithPython h dbPath t s) = Ok Pending <->
   dataOnly (spawn h (commandLine h dbPath t) (extensionPath h)) = true).
Proof.
  intros Hscript.
  unfold loadWithPython, bind, log_spawn, ret. rewrite Hscript. simpl.
  set (events := spawn h (commandLine h dbPath t) (extensionPath h)).
  split.
  - intros Hpending.
    apply (unsettled_dataOnly h (commandLine h dbPath t) events listening eq_refl).
    fold (run_listeners h (commandLine h dbPath t) events).
    destruct (settled (run_listeners h (commandLine h dbPath t) events))
      as [[v | e] |]; [discriminate | discriminate | reflexivity].
  - intros Hdata. unfold run_listeners.
    now rewrite (fold_dataOnly_settled h _ events Hdata listening).
Qed.

Lemma pending_without_close_witness :
  fst (loadWithPython
         (Demo.host "/data" Demo.index_only
            (fun _ => [StdoutData (Demo.bytes "{"); StderrData (Demo.bytes "working")]))
         "/data/index.faiss" faiss Demo.fresh) = Ok Pending.
Proof.
  apply (pending_without_close
           (Demo.host "/data" Demo.index_only
              (fun _ => [StdoutData (Demo.bytes "{");
                         StderrData (Demo.bytes "working")]))
           "/data/index.faiss" faiss Demo.fresh eq_refl).
  reflexivity.
Defined.

(** ** What a fulfilled load carries *)

Lemma zeroExit_fulfilled (h : Host) (output : string) (v : json) :
  zeroExit h output = Ok v ->
  JSON_parse h output = Ok v
  /\ has_property (Number_toString h) "error" v = Ok false.
Proof.
  unfold zeroExit, parseOutput.
  destruct (JSON_parse h output) as [doc | e]; simpl; [| discriminate].
  destruct (has_property (Number_toString h) "error" doc) as [[|] | e] eqn:Hin;
    simpl; try discriminate.
  - destruct (match get_property "error" doc with
              | Some v0 => to_string (Number_toString h) v0
              | None => Ok "undefined"
              end); simpl; discriminate.
  - intros [= <-]. auto.
Qed.

Lemma fold_fulfilled (h : Host) (command : string) (events : list event) :
  forall l v,
    settled l = None ->
    settled (fold_left (dispatch h command) events l) = Some (Ok v) ->
    exists output,
      JSON_parse h output = Ok v
      /\ has_property (Number_toString h) "error" v = Ok false.
Proof.
  induction events as [| e events IH]; intros l v Hl Hend.
  - simpl in Hend. congruence.
  - cbn [fold_left] in Hend.
    destruct e as [data | data | code | message].
    + apply (IH (dispatch h command l (StdoutData data)) v Hl Hend).
    + apply (IH (dispatch h command l (StderrData data)) v Hl Hend).
    + change (dispatch h command l (Close code))
        with (onClose h command code l) in Hend.
      assert (Hset : exists r, settled (onClose h command code l) = Some r
                               /\ (forall w, r = Ok w ->
                                   zeroExit h (outputData l) = Ok w)).
      { unfold onClose. destruct (negb (is_zero code));
          rewrite settle_settled, Hl; eexists; split; try reflexivity;
          [discriminate | auto]. }
      destruct Hset as (r & Hr & Hzero).
      rewrite (fold_settled_stable h command events _ r Hr) in Hend.
      injection Hend as ->.
      exists (outputData l). apply zeroExit_fulfilled. now apply Hzero.
    + change (dispatch h command l (ProcessError message))
        with (onError h message l) in Hend.
      assert (Hr : exists e, settled (onError h message l) = Some (Throw e)).
      { unfold onError. rewrite settle_settled, Hl. eauto. }
      destruct Hr as [e Hr].
      rewrite (fold_settled_stable h command events _ _ Hr) in Hend.
      discriminate.
Qed.

Lemma loadWithPython_fulfilled (h : Host) (dbPath : string) (t : dbType)
  (s : state) (v : json) :
  fst (loadWithPython h dbPath t s) = Ok (Resolved v) ->
  exists output,
    JSON_parse h output = Ok v
    /\ has_property (Number_toString h) "error" v = Ok false.
Proof.
  unfold loadWithPython, bind, log_spawn, ret.
  destruct (negb (existsSync h (pythonScriptPath h t))); simpl;
    [discriminate |].
  destruct (settled (run_listeners h _ _)) as [[w | e] |] eqn:Hsettled;
    simpl; try discriminate.
  intros [= ->].
  apply (fold_fulfilled h _ _ listening v eq_refl Hsettled).
Qed.

(** X11. A fulfilled load carries a document that [JSON.parse] produced
    from some text and that is an array, or an object without an [error]
    member: a reported failure never arrives as a result. *)
Theorem fulfilled_without_error_member (h : Host) (dbPath : string)
  (s : state) (v : json) :
  fst (loadVectorDB h dbPath s) = Resolved v ->
  (exists output, JSON_parse h output = Ok v)
  /\ ((exists members, v = JObject members /\ get_member "error" members = None)
      \/ (exists elements, v = JArray elements)).
Proof.
  intros Hresolved.
  assert (Hadapter : exists q t s0,
             fst (loadWithPython h q t s0) = Ok (Resolved v)).
  { revert Hresolved.
    unfold loadVectorDB, loadVectorDB_body.
    destruct (negb (existsSync h dbPath)); [discriminate |].
    unfold bind at 1. unfold set_detectedPath at 1. unfold bind at 1.
    destruct (detectDatabaseType h dbPath _) as [[[t |] | e] s1];
      [| | discriminate].
    - unfold bind at 1. unfold get_detectedPath at 1.
      destruct (loadWithPython h _ t s1) as [[p | e] s2] eqn:Hload;
        simpl; [| discriminate].
      intros ->. eexists _, t, s1. now rewrite Hload.
    - unfold undetected, bind, lift, throw.
      destruct (statSync h dbPath) as [k | e]; [| discriminate].
      destruct (isFile k); [discriminate |].
      destruct (isDirectory k); [| discriminate].
      destruct (readdirSync h dbPath); discriminate. }
  destruct Hadapter as (q & t & s0 & Hload).
  destruct (loadWithPython_fulfilled h q t s0 v Hload) as (output & Hparse & Hclean).
  split; [eauto |].
  now apply (has_property_false (Number_toString h)).
Qed.

Lemma fulfilled_without_error_member_witness :
  let h := Demo.host "/data" Demo.nested2
             (Demo.chatty Demo.mismatched_document 0) in
  exists v,
    fst (loadVectorDB h "/data" Demo.fresh) = Resolved v
    /\ ((exists members,
            v = JObject members /\ get_member "error" members = None)
        \/ (exists elements, v = JArray elements)).
Proof.
  intros h. eexists. split; [reflexivity |].
  exact (proj2 (fulfilled_without_error_member h "/data" Demo.fresh _ eq_refl)).
Defined.

(** X12. Whenever the first event after the output is a [close] whose code
    is not 0, a child ended by a signal included, the load is rejected
    without a look at the output as JSON, under a message that quotes the
    code, the command line and both streams; an empty stream is shown as
    "No error output" or "No output". *)
Theorem nonzero_exit_rejected (h : Host) (dbPath : string) (t : dbType)
  (s : state) (before after : list event) (code : option Z) :
  existsSync h (pythonScriptPath h t) = true ->
  spawn h (commandLine h dbPath t) (extensionPath h) =
  (before ++ Close code :: after)%list ->
  dataOnly before = true ->
  code <> Some 0%Z ->
  fst (loadWithPython h dbPath t s) =
  Ok (Rejected
        ("Python process exited with code "
         ++ match code with Some z => string_of_Z z | None => "null" end ++ nl
         ++ "Command: " ++ commandLine h dbPath t ++ nl
         ++ "Error: "
         ++ (if stderrText h before =? "" then "No error output"
             else stderrText h before) ++ nl
         ++ "Output: "
         ++ (if stdoutText h before =? "" then "No output"
             else stdoutText h before))).
Proof.
  intros Hscript Htrace Hdata Hcode.
  apply (loadWithPython_nonzero h dbPath t s before after code
           Hscript Htrace Hdata).
  destruct code as [z |]; [| reflexivity].
  simpl. apply Z.eqb_neq. congruence.
Qed.

Lemma nonzero_exit_rejected_witness :
  fst (loadWithPython
         (Demo.host "/data" Demo.index_only
            (fun _ => [StderrData (Demo.bytes "traceback..."); Close (Some 2%Z)]))
         "/data/index.faiss" faiss Demo.fresh) =
  Ok (Rejected
        ("Python process exited with code 2" ++ nl
         ++ "Command: python3 " ++ Demo.key "/ext/python/faiss_adapter.py"
         ++ " " ++ Demo.key "/data/index.faiss" ++ nl
         ++ "Error: traceback..." ++ nl
         ++ "Output: No output")).
Proof.
  exact (nonzero_exit_rejected
           (Demo.host "/data" Demo.index_only
              (fun _ => [StderrData (Demo.bytes "traceback...");
                         Close (Some 2%Z)]))
           "/data/index.faiss" faiss Demo.fresh
           [StderrData (Demo.bytes "traceback...")] [] (Some 2%Z)
           eq_refl eq_refl eq_refl ltac:(discriminate)).
Defined.

(** * Further properties of the exporter and its command *)

Import Extension.

Lemma csvRow_fields (d : Desk) (record : VectorRecord) :
  fields columns (csvRow d record) =
  [id record;
   text record;
   source record;
   JSON_stringify d (JArray (map JNumber (vector record)));
   string_of_nat (List.length (vector record));
   JSON_stringify d
     (JObject (match metadata record with
               | Some members => members
               | None => []
               end))].
Proof. reflexivity. Qed.

(** X13. Read back, the exported file is the header line of the six column
    names followed by one row of six fields per record, in order.  The
    [dimension] field is the length of the record's own vector in decimal,
    and the [metadata] field is the JSON text of the record's metadata, of
    the empty object when it has none; the [type], [count] and [dimension]
    of the data set appear nowhere. *)
Theorem exported_table (d : Desk)
  (reader : string -> option (list (list string))) (data : VectorData) :
  reads_back reader (stringify d) ->
  reader (csvText d data) =
  Some (["id"; "text"; "source"; "vector"; "dimension"; "metadata"]
        :: map (fun record =>
                  [id record;
                   text record;
                   source record;
                   JSON_stringify d (JArray (map JNumber (vector record)));
                   string_of_nat (List.length (vector record));
                   JSON_stringify d
                     (JObject (match metadata record with
                               | Some members => members
                               | None => []
                               end))])
               (vectors data)).
Proof.
  intros Hreader. unfold csvText. rewrite Hreader by discriminate.
  unfold csvData. rewrite map_map. reflexivity.
Qed.

Lemma exported_table_witness :
  Csv.read (csvText DemoExport.desk DemoExport.sample) =
  Some [["id"; "text"; "source"; "vector"; "dimension"; "metadata"];
        ["a";
         "said " ++ dquote ++ "hi" ++ dquote ++ ", twice" ++ nl ++ "and left";
         "notes, v2.txt"; "[1,2,3]"; "3"; "{}"];
        ["b"; ""; "plain"; "[]"; "0"; "{" ++ Demo.key "page" ++ ":4}"]].
Proof.
  exact (exported_table DemoExport.desk Csv.read DemoExport.sample
           csv_read_write).
Defined.


(** X15. With records to export, a dismissed save dialog still ends in the
    success notice although no file is written, and a write that fails ends
    in an error notice that carries the prefix "Failed to export CSV: "
    twice, once from the exporter and once from the command, the disk left
    as it was. *)
Theorem export_command_notices (d : Desk) (set : VectorData)
  (disk : list (string * string)) :
  vectors set <> [] ->
  (showSaveDialog d = None ->
   exportCSVCommand d (Some set) disk =
   ([InformationMessage "Vector data exported successfully"], disk))
  /\ (forall fsPath message,
         showSaveDialog d = Some fsPath ->
         writeFileSync d fsPath (csvText d set) = Throw message ->
         exportCSVCommand d (Some set) disk =
         ([ErrorMessage
             ("Failed to export CSV: Failed to export CSV: " ++ message)],
          disk)).
Proof.
  intros Hrecords. unfold exportCSVCommand, exportToCSV.
  destruct (vectors set) as [| record rest]; [contradiction |].
  cbn [List.length Nat.eqb]. split.
  - intros ->. reflexivity.
  - intros fsPath message -> ->. reflexivity.
Qed.

Lemma export_command_notices_witness :
  exportCSVCommand
    {| showSaveDialog := None;
       writeFileSync := fun _ _ => Ok tt;
       JSON_stringify := DemoExport.print;
       stringify := Csv.write |}
    (Some DemoExport.sample) [] =
  ([InformationMessage "Vector data exported successfully"], []).
Proof.
  apply (export_command_notices
           {| showSaveDialog := None;
              writeFileSync := fun _ _ => Ok tt;
              JSON_stringify := DemoExport.print;
              stringify := Csv.write |}
           DemoExport.sample []).
  - discriminate.
  - reflexivity.
Defined.

(** * Properties of the webview table *)

Import Webview.

(** ** Pages *)

Lemma firstn_add {A : Type} (a b : nat) (l : list A) :
  firstn (a + b) l = (firstn a l ++ firstn b (skipn a l))%list.
Proof.
  revert l. induction a as [| a IH]; intros [| x l]; simpl;
    try reflexivity.
  - now destruct b.
  - now rewrite IH.
Qed.

Lemma firstn_min_length {A : Type} (k : nat) (l : list A) :
  firstn (Nat.min k (List.length l)) l = firstn k l.
Proof.
  destruct (Nat.le_ge_cases k (List.length l)) as [Hle | Hge].
  - now rewrite Nat.min_l.
  - rewrite Nat.min_r by exact Hge.
    now rewrite firstn_all, firstn_all2.
Qed.

Lemma totalPages_bounds (rows : list VectorRecord) :
  (0 <= totalPages rows)%Z
  /\ (Z.of_nat (List.length rows) <= 50 * totalPages rows)%Z
  /\ (50 * totalPages rows < Z.of_nat (List.length rows) + 50)%Z.
Proof.
  unfold totalPages, itemsPerPage.
  pose proof (Z.div_mod (Z.of_nat (List.length rows) + (50 - 1)) 50) as Hdiv.
  pose proof (Z.mod_pos_bound (Z.of_nat (List.length rows) + (50 - 1)) 50) as Hmod.
  lia.
Qed.

(** On a page numbered from 1, the rows sliced are the next fifty. *)
Lemma slice_window {A : Type} (i : nat) (l : list A) :
  slice (Z.of_nat i * 50)
        (Z.min (Z.of_nat i * 50 + 50) (Z.of_nat (List.length l))) l =
  firstn 50 (skipn (i * 50) l).
Proof.
  unfold slice.
  set (n := Z.of_nat (List.length l)).
  set (start := (Z.of_nat i * 50)%Z).
  assert (Hstart : (0 <= start)%Z) by (subst start; lia).
  assert (Hn : (0 <= n)%Z) by (subst n; lia).
  destruct (Z.ltb_spec start 0) as [Hneg | _]; [lia |].
  destruct (Z.ltb_spec (Z.min (start + 50) n) 0) as [Hneg | _]; [lia |].
  destruct (Z.le_gt_cases start n) as [Hin | Hout].
  - rewrite (Z.min_l start n) by lia.
    replace (Z.to_nat start) with (i * 50) by (subst start; lia).
    rewrite <- (firstn_min_length 50 (skipn (i * 50) l)).
    f_equal. rewrite length_skipn. subst n start. lia.
  - rewrite (Z.min_r start n) by lia.
    replace (Z.to_nat (Z.min (Z.min (start + 50) n) n - n)) with 0 by lia.
    rewrite (skipn_all2 l (n := i * 50)) by (subst n start; lia).
    reflexivity.
Qed.

Lemma renderTable_rows (all rows : list VectorRecord) (i : nat)
  (c : column) (d : direction) :
  pageVectors (renderTable (mkView all rows (Z.of_nat i + 1) c d)) =
  firstn 50 (skipn (i * 50) rows).
Proof.
  unfold renderTable, itemsPerPage. cbn [pageVectors currentPage filteredVectors].
  replace ((Z.of_nat i + 1 - 1) * 50)%Z with (Z.of_nat i * 50)%Z by lia.
  apply slice_window.
Qed.

Lemma windows_concat {A : Type} (l : list A) (k : nat) :
  concat (map (fun i => firstn 50 (skipn (i * 50) l)) (seq 0 k)) =
  firstn (k * 50) l.
Proof.
  induction k as [| k IH]; [reflexivity |].
  rewrite seq_S, map_app, concat_app, IH.
  cbn [map concat Nat.add]. rewrite app_nil_r.
  replace (S k * 50) with (k * 50 + 50) by lia.
  symmetry. apply firstn_add.
Qed.

(** X16. The pages cut the rows up: put one after the other, the rows
    shown on pages 1 to the last page are the filtered rows, each once and
    in order; every such page shows at least one row and at most fifty. *)
Theorem pages_partition (all rows : list VectorRecord)
  (c : column) (d : direction) :
  let page := fun i =>
    pageVectors (renderTable (mkView all rows (Z.of_nat i + 1) c d)) in
  let last := Z.to_nat (totalPages rows) in
  concat (map page (seq 0 last)) = rows
  /\ forall i, i < last ->
       1 <= List.length (page i) /\ List.length (page i) <= 50.
Proof.
  intros page last.
  destruct (totalPages_bounds rows) as (Hpos & Hcover & Htight).
  split.
  - subst page.
    rewrite (map_ext _ (fun i => firstn 50 (skipn (i * 50) rows)))
      by (intros i; apply renderTable_rows).
    rewrite windows_concat. apply firstn_all2. subst last. lia.
  - intros i Hi. subst page. cbv beta.
    rewrite renderTable_rows, length_firstn, length_skipn.
    subst last. lia.
Qed.

Lemma pages_partition_witness :
  let page := fun i =>
    pageVectors
      (renderTable (mkView DemoTable.many DemoTable.many (Z.of_nat i + 1)
                      ColumnId asc)) in
  List.length (page 2) = 20
  /\ 1 <= List.length (page 2) /\ List.length (page 2) <= 50.
Proof.
  intros page. split; [reflexivity |].
  apply (proj2 (pages_partition DemoTable.many DemoTable.many ColumnId asc) 2).
  vm_compute. lia.
Defined.

(** ** Moving between pages *)


Lemma totalPages_length (rows rows' : list VectorRecord) :
  List.length rows = List.length rows' -> totalPages rows = totalPages rows'.
Proof. unfold totalPages. now intros ->. Qed.

Lemma filter_incl {A : Type} (f : A -> bool) (l : list A) :
  incl (filter f l) l.
Proof. intros x Hx. now apply filter_In in Hx. Qed.

(** X17. Whatever the user does, the page number stays on the table: after
    any sequence of data arrivals, searches, sorts and clicks on enabled
    page buttons, the current page is at least 1 and at most the number of
    pages (1 for an empty table), every row shown belongs to the data last
    received, and the page shows rows whenever there are rows to show.
    The engine's sort is only taken to permute its input. *)
Theorem page_stays_on_table (sort : sorter) (v : view) :
  (forall cmp l, Permutation (sort cmp l) l) ->
  Shown sort v ->
  (1 <= currentPage v)%Z
  /\ (currentPage v <= Z.max 1 (totalPages (filteredVectors v)))%Z
  /\ incl (filteredVectors v) (allVectors v)
  /\ (filteredVectors v <> [] -> pageVectors (renderTable v) <> []).
Proof.
  intros Hsort Hshown.
  assert (Hinv : (1 <= currentPage v)%Z
                 /\ (currentPage v <= Z.max 1 (totalPages (filteredVectors v)))%Z
                 /\ incl (filteredVectors v) (allVectors v)).
  { induction Hshown as [| v a Hshown IH Hpossible].
    - simpl. repeat split; try lia. apply incl_refl.
    - destruct IH as (Hlow & Hhigh & Hincl).
      destruct a as [data | value | c | |]; simpl.
      + repeat split; try lia. apply incl_refl.
      + repeat split; try lia.
        destruct (_ =? _); [apply incl_refl | apply filter_incl].
      + rewrite (totalPages_length _ (filteredVectors v))
          by (apply Permutation_length, Hsort).
        repeat split; try lia.
        intros x Hx. apply Hincl.
        exact (Permutation_in x (Hsort _ _) Hx).
      + simpl in Hpossible. apply negb_true_iff, Z.leb_gt in Hpossible.
        repeat split; try lia. exact Hincl.
      + simpl in Hpossible. apply negb_true_iff, Z.leb_gt in Hpossible.
        repeat split; try lia. exact Hincl. }
  destruct Hinv as (Hlow & Hhigh & Hincl).
  repeat split; try assumption.
  intros Hrows.
  destruct (totalPages_bounds (filteredVectors v)) as (Hpos & Hcover & Htight).
  assert (Hlen : 0 < List.length (filteredVectors v))
    by (destruct (filteredVectors v); [contradiction | simpl; lia]).
  destruct v as [all rows page c d]. cbn [filteredVectors currentPage] in *.
  replace page with (Z.of_nat (Z.to_nat (page - 1)) + 1)%Z by lia.
  rewrite renderTable_rows.
  intros Hempty. apply (f_equal (@List.length _)) in Hempty.
  rewrite length_firstn, length_skipn in Hempty.
  change (List.length (@nil VectorRecord)) with 0 in Hempty.
  unfold itemsPerPage in *. lia.
Qed.

Lemma insertion_sort_permutation cmp (l : list VectorRecord) :
  Permutation (insertion_sort cmp l) l.
Proof.
  unfold insertion_sort.
  induction l as [| x l IH]; simpl; [constructor |].
  transitivity (x :: fold_right (insert cmp) [] l); [| now constructor].
  generalize (fold_right (insert cmp) [] l) as sorted. clear IH.
  induction sorted as [| y sorted IH]; simpl; [reflexivity |].
  destruct (cmp x y <=? 0)%Z; [reflexivity |].
  rewrite IH. apply perm_swap.
Qed.

Lemma page_stays_on_table_witness :
  let v :=
    act insertion_sort
      (act insertion_sort
         (act insertion_sort
            (act insertion_sort initial
               (Receive {| type := faiss; count := 120; dimension := 0;
                           vectors := DemoTable.many |}))
            Next)
         (Sort ColumnText))
      Next in
  currentPage v = 3%Z /\ pageVectors (renderTable v) <> [].
Proof.
  intros v.
  assert (Hshown : Shown insertion_sort v).
  { repeat (apply shown_after; [| reflexivity]). apply shown_initial. }
  destruct (page_stays_on_table insertion_sort v
              insertion_sort_permutation Hshown) as (_ & _ & _ & Hrows).
  split; [reflexivity |].
  apply Hrows. vm_compute. discriminate.
Defined.

(** ** Searching *)

Lemma prefix_spec (a : string) :
  forall s, prefix a s = true <-> exists post, s = a ++ post.
Proof.
  induction a as [| c a IH]; intros s.
  - split; [intros _; now exists s | intros _; now destruct s].
  - destruct s as [| c' s]; simpl.
    + split; [discriminate | intros [post Hpost]; discriminate].
    + destruct (ascii_dec c c') as [<- | Hne].
      * rewrite IH. split; intros [post Hpost]; exists post.
        -- now rewrite Hpost.
        -- now injection Hpost.
      * split; [discriminate |].
        intros [post Hpost]. injection Hpost as Hc _. now destruct Hne.
Qed.

Lemma includes_spec (s : string) :
  forall sub,
    includes s sub = true <-> exists pre post, s = pre ++ sub ++ post.
Proof.
  induction s as [| c s IH]; intros sub.
  - cbn [includes]. rewrite orb_false_r, prefix_spec. split.
    + intros [post Hpost]. now exists "", post.
    + intros (pre & post & Hs). destruct pre; [now exists post | discriminate].
  - cbn [includes]. rewrite orb_true_iff, prefix_spec, IH. split.
    + intros [[post Hpost] | (pre & post & Hs)].
      * now exists "", post.
      * exists (String c pre), post. simpl. now rewrite Hs.
    + intros (pre & post & Hs). destruct pre as [| c' pre].
      * left. now exists post.
      * right. simpl in Hs. injection Hs as _ Hs. now exists pre, post.
Qed.

Lemma includes_trans (s middle sub : string) :
  includes s middle = true ->
  includes middle sub = true ->
  includes s sub = true.
Proof.
  rewrite !includes_spec.
  intros (pre & post & ->) (pre' & post' & ->).
  exists (pre ++ pre'), (post' ++ post).
  now rewrite !append_assoc.
Qed.

Lemma includes_empty (sub : string) : includes "" sub = true -> sub = "".
Proof.
  rewrite includes_spec. intros (pre & post & Hs).
  destruct pre; [| discriminate]. destruct sub; [reflexivity | discriminate].
Qed.

(** X18. A longer query never brings a row back: when the query typed,
    lower-cased and trimmed, contains the earlier one, every row the new
    search shows was shown by the earlier search.  Every search shows
    rows of the data received, in their original order, whatever sort was
    applied before, and goes back to page 1. *)
Theorem search_narrows (earlier typed : string) (v : view) :
  includes (trim (toLowerCase typed)) (trim (toLowerCase earlier)) = true ->
  incl (filteredVectors (handleSearch typed v))
       (filteredVectors (handleSearch earlier v))
  /\ (exists keep,
        filteredVectors (handleSearch typed v) = filter keep (allVectors v))
  /\ currentPage (handleSearch typed v) = 1%Z.
Proof.
  intros Hcontains. unfold handleSearch. cbn [filteredVectors currentPage].
  set (q1 := trim (toLowerCase earlier)) in *.
  set (q2 := trim (toLowerCase typed)) in *.
  split; [| split; [| reflexivity]].
  - destruct (String.eqb_spec q1 "") as [E1 | N1].
    + destruct (q2 =? ""); [apply incl_refl | apply filter_incl].
    + destruct (String.eqb_spec q2 "") as [E2 | N2].
      * rewrite E2 in Hcontains. now apply includes_empty in Hcontains.
      * intros record Hin. apply filter_In in Hin as [Hin Hmatch].
        apply filter_In. split; [exact Hin |].
        unfold matches in *.
        apply orb_true_iff in Hmatch as [Hmatch | Hsource].
        -- apply orb_true_iff in Hmatch as [Hid | Htext].
           ++ now rewrite (includes_trans _ _ _ Hid Hcontains).
           ++ rewrite (includes_trans _ _ _ Htext Hcontains).
              now rewrite orb_true_r.
        -- rewrite (includes_trans _ _ _ Hsource Hcontains).
           now rewrite !orb_true_r.
  - destruct (q2 =? "").
    + exists (fun _ => true). symmetry.
      induction (allVectors v) as [| x l IH]; simpl; [reflexivity | now rewrite IH].
    + now exists (matches q2).
Qed.

Lemma search_narrows_witness :
  let v := handleVectorData DemoTable.few initial in
  map id (filteredVectors (handleSearch " FAISS " v)) = ["b-2"; "c-3"]
  /\ incl (filteredVectors (handleSearch "faiss index" v))
          (filteredVectors (handleSearch " FAISS " v)).
Proof.
  intros v. split; [reflexivity |].
  exact (proj1 (search_narrows " FAISS " "faiss index" v eq_refl)).
Defined.

(** ** Sorting *)

Lemma ascii_compare_lt_trans (a b c : ascii) :
  Ascii.compare a b = Lt -> Ascii.compare b c = Lt -> Ascii.compare a c = Lt.
Proof.
  unfold Ascii.compare. rewrite !N.compare_lt_iff. lia.
Qed.

Lemma string_compare_lt_trans (a : string) :
  forall b c,
    String.compare a b = Lt -> String.compare b c = Lt ->
    String.compare a c = Lt.
Proof.
  induction a as [| x a IH]; intros [| y b] [| z c]; simpl;
    try discriminate; try reflexivity.
  destruct (Ascii.compare x y) eqn:Hxy; try discriminate;
    destruct (Ascii.compare y z) eqn:Hyz; try discriminate; intros Hab Hbc.
  - apply Ascii.compare_eq_iff in Hxy, Hyz. subst.
    assert (Hzz : Ascii.compare z z = Eq)
      by (unfold Ascii.compare; apply N.compare_refl).
    rewrite Hzz. now apply IH with (b := b).
  - apply Ascii.compare_eq_iff in Hxy. subst. now rewrite Hyz.
  - apply Ascii.compare_eq_iff in Hyz. subst. now rewrite Hxy.
  - now rewrite (ascii_compare_lt_trans x y z Hxy Hyz).
Qed.

Lemma string_compare_refl (a : string) : String.compare a a = Eq.
Proof.
  induction a as [| x a IH]; simpl; [reflexivity |].
  assert (Hxx : Ascii.compare x x = Eq)
    by (unfold Ascii.compare; apply N.compare_refl).
  now rewrite Hxx.
Qed.

Lemma or_else_self (x : string) : or_else (Some x) "" = x.
Proof.
  simpl. destruct (String.eqb_spec x "") as [-> | _]; reflexivity.
Qed.

(** The key the comparator compares. *)
Lemma compareRows_key (c : column) (d : direction) (a b : VectorRecord) :
  compareRows c d a b =
  match String.compare (toLowerCase (cell_of c a)) (toLowerCase (cell_of c b)) with
  | Lt => match d with asc => (-1)%Z | desc => 1%Z end
  | Gt => match d with asc => 1%Z | desc => (-1)%Z end
  | Eq => 0%Z
  end.
Proof. unfold compareRows. now rewrite !or_else_self. Qed.

(** X19. The comparator given to [sort] is a consistent order, as [sort]
    needs: swapping its arguments negates its result, it answers 0 exactly
    for rows whose lower-cased cells are equal, and "not after" is
    transitive; descending is the negation of ascending. *)
Theorem comparator_consistent (c : column) (d : direction)
  (a b x : VectorRecord) :
  compareRows c d a b = (- compareRows c d b a)%Z
  /\ (compareRows c d a b = 0%Z <->
      toLowerCase (cell_of c a) = toLowerCase (cell_of c b))
  /\ ((compareRows c d a b <= 0)%Z -> (compareRows c d b x <= 0)%Z ->
      (compareRows c d a x <= 0)%Z)
  /\ compareRows c desc a b = (- compareRows c asc a b)%Z.
Proof.
  rewrite !compareRows_key.
  set (ka := toLowerCase (cell_of c a)).
  set (kb := toLowerCase (cell_of c b)).
  set (kx := toLowerCase (cell_of c x)).
  assert (Hflip : forall s t, String.compare s t = Gt -> String.compare t s = Lt).
  { intros s t H. rewrite String.compare_antisym, H. reflexivity. }
  assert (Hflip' : forall s t, String.compare s t = Lt -> String.compare t s = Gt).
  { intros s t H. rewrite String.compare_antisym, H. reflexivity. }
  repeat split.
  - rewrite (String.compare_antisym kb ka).
    destruct (String.compare ka kb), d; reflexivity.
  - destruct (String.compare ka kb) eqn:E; destruct d; try discriminate.
    + intros _. now apply String.compare_eq_iff.
    + intros _. now apply String.compare_eq_iff.
  - intros ->. rewrite string_compare_refl. reflexivity.
  - destruct (String.compare ka kb) eqn:Hab;
      destruct (String.compare kb kx) eqn:Hbx;
      destruct d; try lia; intros _ _.
    + apply String.compare_eq_iff in Hab, Hbx. subst ka kb.
      rewrite Hab, Hbx, string_compare_refl. lia.
    + apply String.compare_eq_iff in Hab, Hbx.
      rewrite Hab, Hbx, string_compare_refl. lia.
    + apply String.compare_eq_iff in Hab. rewrite Hab, Hbx. lia.
    + apply String.compare_eq_iff in Hab. rewrite Hab, Hbx. lia.
    + apply String.compare_eq_iff in Hbx. rewrite <- Hbx, Hab. lia.
    + rewrite (string_compare_lt_trans ka kb kx Hab Hbx). lia.
    + apply String.compare_eq_iff in Hbx. rewrite <- Hbx, Hab. lia.
    + rewrite (Hflip' _ _ (string_compare_lt_trans kx kb ka
                             (Hflip _ _ Hbx) (Hflip _ _ Hab))). lia.
  - destruct (String.compare ka kb); reflexivity.
Qed.

Lemma comparator_consistent_witness :
  let rows := vectors DemoTable.few in
  let a := nth 1 rows (DemoTable.row "" "" "") in
  let b := nth 0 rows (DemoTable.row "" "" "") in
  let x := nth 2 rows (DemoTable.row "" "" "") in
  map id [a; b; x] = ["A-1"; "b-2"; "c-3"]
  /\ (compareRows ColumnId asc a x <= 0)%Z.
Proof.
  intros rows a b x. split; [reflexivity |].
  apply (proj1 (proj2 (proj2 (comparator_consistent ColumnId asc a b x))));
    vm_compute; discriminate.
Defined.

(** ** Rows *)

Lemma substring_length (n : nat) :
  forall s : string,
    String.length (substring 0 n s) = Nat.min n (String.length s).
Proof.
  induction n as [| n IH]; intros [| c s]; simpl; try reflexivity.
  now rewrite IH.
Qed.

(** X20. The text shown in a table row is the record's text when it has
    at most 300 characters, and otherwise its first 300 characters followed
    by three dots: 303 characters exactly, never more. *)
Theorem row_text_bounded (record : VectorRecord) :
  String.length (truncatedText record) <= 303
  /\ (String.length (text record) <= 300 ->
      truncatedText record = text record)
  /\ (300 < String.length (text record) ->
      truncatedText record = substring 0 300 (text record) ++ "..."
      /\ String.length (truncatedText record) = 303).
Proof.
  unfold truncatedText.
  pose proof (substring_length 300 (text record)) as Hlen.
  destruct (Nat.ltb_spec 300 (String.length (text record))) as [Hlong | Hshort].
  - assert (Hcut : String.length (substring 0 300 (text record) ++ "...") = 303).
    { rewrite append_length, Hlen.
      change (String.length "...") with 3. lia. }
    split; [lia |]. split; [lia |].
    intros _. split; [reflexivity | exact Hcut].
  - split; [lia |]. split; [reflexivity | lia].
Qed.

Lemma row_text_bounded_witness :
  truncatedText (DemoTable.row "a" "short text" "s") = "short text".
Proof.
  apply (proj1 (proj2 (row_text_bounded (DemoTable.row "a" "short text" "s")))).
  vm_compute. lia.
Defined.

(** * The command line for paths with spaces *)

(** X21. The quoting does what the source says it is for: a path that may
    hold spaces, but no double quote, backslash, [$] or backquote, reaches
    the adapter as one argument and unaltered, after the script path, when
    the interpreter is a bare word and the script path is as harmless. *)
Theorem spaces_reach_adapter (h : Host) (dbPath : string) (t : dbType) :
  getPythonCommand h <> "" ->
  Shell.bare (getPythonCommand h) = true ->
  Shell.plain (pythonScriptPath h t) = true ->
  Shell.plain dbPath = true ->
  Shell.words (commandLine h dbPath t) =
  Shell.Words [getPythonCommand h; pythonScriptPath h t; dbPath].
Proof. apply commandLine_plain_path. Qed.

Lemma spaces_reach_adapter_witness :
  Shell.words
    (commandLine (Demo.host "/data" Demo.index_only Demo.silent)
       "/data/my vectors/chroma db" chroma) =
  Shell.Words ["python3"; "/ext/python/chroma_adapter.py";
               "/data/my vectors/chroma db"].
Proof.
  apply (spaces_reach_adapter
           (Demo.host "/data" Demo.index_only Demo.silent)
           "/data/my vectors/chroma db" chroma);
    [discriminate | reflexivity | reflexivity | reflexivity].
Defined.
